(** * Client auth state of gov-presenton

    A shallow embedding of the browser-side authentication layer:

    - [servers/nextjs/contexts/AuthContext.tsx]: the [AuthState] cell of
      [AuthProvider], the hook [useAuth] and the four operations
      [checkAuth], [login], [logout] and [refreshToken];
    - [servers/nextjs/components/auth/AuthComponents.tsx]: the rendering
      guard [AuthGuard].

    The asynchronous operations are written in a small free monad
    ([Async]) whose constructors are the effects the source performs:
    dispatching to [setAuthState], awaiting [fetch], writing to
    [console.error], assigning [window.location.href], and throwing.  Two
    interpreters give them meaning: [run] executes one call to completion
    against a network oracle, [schedule] interleaves calls and the
    settlements of their requests. *)

From Stdlib Require Import String Ascii List Bool Arith ZArith Lia.
From ExtLib Require Import Structures.Monad Structures.MonadExc.
Import ListNotations.
Import MonadNotation.

Set Implicit Arguments.

Local Open Scope string_scope.
Local Open Scope monad_scope.

(* ===================================================================== *)
(** ** JavaScript values of the types the source uses                     *)
(* ===================================================================== *)

Module JS.

(** [if (s)] on a string: the empty string is falsy. *)
Definition truthy_string (s : string) : bool :=
  match s with
  | EmptyString => false
  | String _ _ => true
  end.

(** [if (x)] on [x?: string]: [undefined] is falsy. *)
Definition truthy_opt_string (o : option string) : bool :=
  match o with
  | None => false
  | Some s => truthy_string s
  end.

(** [if (x)] on [x : T | null] for an object type [T]: every object is
    truthy. *)
Definition truthy_object {T : Type} (o : option T) : bool :=
  match o with
  | None => false
  | Some _ => true
  end.

(** [xs.includes(x)] on [string[]]. *)
Definition includes (xs : list string) (x : string) : bool :=
  existsb (String.eqb x) xs.

(** *** [URLSearchParams]

    Strings stand for the UTF-8 bytes of the JavaScript string, which is
    what the [application/x-www-form-urlencoded] serializer works on.  The
    names and values of [URLSearchParams] are USVStrings: in a string that
    is not well-formed, each unpaired surrogate is first replaced by
    U+FFFD, and the bytes are those of the string after that. *)

Definition hex_digit (n : nat) : ascii :=
  match n with
  | 0 => "0" | 1 => "1" | 2 => "2" | 3 => "3" | 4 => "4"
  | 5 => "5" | 6 => "6" | 7 => "7" | 8 => "8" | 9 => "9"
  | 10 => "A" | 11 => "B" | 12 => "C" | 13 => "D" | 14 => "E"
  | _ => "F"
  end%char.

Definition between (lo hi n : nat) : bool := Nat.leb lo n && Nat.leb n hi.

(** Bytes the serializer leaves as they are: [*], [-], [.], [_] and the
    ASCII alphanumerics. *)
Definition form_unreserved (n : nat) : bool :=
  Nat.eqb n 42 || Nat.eqb n 45 || Nat.eqb n 46 || Nat.eqb n 95
  || between 48 57 n || between 65 90 n || between 97 122 n.

Definition form_encode_byte (c : ascii) : string :=
  let n := nat_of_ascii c in
  if form_unreserved n then String c EmptyString
  else if Nat.eqb n 32 then "+"
  else String "%" (String (hex_digit (n / 16))
                     (String (hex_digit (n mod 16)) EmptyString)).

Fixpoint form_encode (s : string) : string :=
  match s with
  | EmptyString => EmptyString
  | String c r => form_encode_byte c ++ form_encode r
  end.

Definition URLSearchParams := list (string * string).

(** [params.set(name, value)]: overwrite the first pair called [name],
    drop the others, append when there is none. *)
Fixpoint drop_name (name : string) (ps : URLSearchParams) : URLSearchParams :=
  match ps with
  | [] => []
  | (k, v) :: r =>
      if String.eqb k name then drop_name name r else (k, v) :: drop_name name r
  end.

Fixpoint set (ps : URLSearchParams) (name value : string) : URLSearchParams :=
  match ps with
  | [] => [(name, value)]
  | (k, v) :: r =>
      if String.eqb k name then (k, value) :: drop_name name r
      else (k, v) :: set r name value
  end.

(** [params.toString()]. *)
Fixpoint toString (ps : URLSearchParams) : string :=
  match ps with
  | [] => EmptyString
  | [(k, v)] => form_encode k ++ "=" ++ form_encode v
  | (k, v) :: r => form_encode k ++ "=" ++ form_encode v ++ "&" ++ toString r
  end.

End JS.

(* ===================================================================== *)
(** ** Reading a URL back: which query parameters does it carry?          *)
(* ===================================================================== *)

Module Url.

(** The text after the first occurrence of [c], if there is one. *)
Fixpoint after_first (c : ascii) (s : string) : option string :=
  match s with
  | EmptyString => None
  | String a r => if Ascii.eqb a c then Some r else after_first c r
  end.

(** The text before the first occurrence of [c] (all of it when there is
    none). *)
Fixpoint before_first (c : ascii) (s : string) : string :=
  match s with
  | EmptyString => EmptyString
  | String a r => if Ascii.eqb a c then EmptyString else String a (before_first c r)
  end.

Fixpoint split (sep : ascii) (s : string) : list string :=
  match s with
  | EmptyString => [EmptyString]
  | String a r =>
      if Ascii.eqb a sep then EmptyString :: split sep r
      else match split sep r with
           | [] => [String a EmptyString]
           | p :: ps => String a p :: ps
           end
  end.

(** Names of the [name=value] pairs of the query string of [url]. *)
Definition query_names (url : string) : list string :=
  match after_first "?" url with
  | None => []
  | Some q => map (before_first "=") (split "&" q)
  end.

Definition has_query_param (name url : string) : bool :=
  existsb (String.eqb name) (query_names url).

End Url.

(* ===================================================================== *)
(** ** contexts/AuthContext.tsx                                           *)
(* ===================================================================== *)

Module AuthContext.

(** [interface EIAMUser]: the client-visible principal.  Optional
    properties are [option]s.  The interface is open, as every TypeScript
    interface is, and the objects come out of [response.json()] unchecked:
    [others] holds whatever further properties an object carries, by name,
    each with the JSON text of its value. *)
Record EIAMUser : Type := {
  sub : string;
  name : option string;
  email : option string;
  given_name : option string;
  family_name : option string;
  roles : list string;
  department : option string;
  organization : option string;
  others : list (string * string)
}.

(** [interface AuthState]; [null] is [None]. *)
Record AuthState : Type := {
  isAuthenticated : bool;
  user : option EIAMUser;
  token : option string;
  loading : bool;
  error : option string
}.

(** *** The network as the provider sees it *)

Record RequestInit : Type := {
  method : string;
  credentials : string
}.

Record Request : Type := {
  url : string;
  init : RequestInit
}.

(** The parsed body of a response, [data], restricted to the properties
    the source reads, at the types [AuthState] gives them: the truthiness
    of [data.authenticated] and of [data.success], and [data.user] and
    [data.token], where an absent or [null] property is [None]. *)
Record Data : Type := {
  authenticated : bool;
  success : bool;
  data_user : option EIAMUser;
  data_token : option string
}.

(** A [Response]: [response.ok] and what [response.json()] settles to;
    [None] when it rejects (a body that is not JSON, or one on which
    reading a property throws). *)
Record Response : Type := {
  ok : bool;
  body : option Data
}.

(** How the promise returned by [fetch] settles. *)
Inductive Settled : Type :=
| Rejected (reason : string)
| Fulfilled (response : Response).

(** *** Effects *)

(** [React.SetStateAction<AuthState>]: a new state, or an updater applied
    to the state current at the time the update is processed. *)
Inductive SetStateAction : Type :=
| Value (s : AuthState)
| Updater (f : AuthState -> AuthState).

Definition apply_action (a : SetStateAction) (prev : AuthState) : AuthState :=
  match a with
  | Value s => s
  | Updater f => f prev
  end.

(** An asynchronous computation: the effects of the provider's functions
    in program order.  [AwaitFetch] suspends until the request settles. *)
Inductive Async (A : Type) : Type :=
| Return (a : A)
| Throw (e : string)
| SetAuthState (a : SetStateAction) (k : Async A)
| AwaitFetch (rq : Request) (k : Settled -> Async A)
| ConsoleError (msg : string) (k : Async A)
| SetLocationHref (href : string) (k : Async A).

Arguments Return {A} a.
Arguments Throw {A} e.
Arguments SetAuthState {A} a k.
Arguments AwaitFetch {A} rq k.
Arguments ConsoleError {A} msg k.
Arguments SetLocationHref {A} href k.

Fixpoint bindA {A B : Type} (p : Async A) (f : A -> Async B) : Async B :=
  match p with
  | Return a => f a
  | Throw e => Throw e
  | SetAuthState a k => SetAuthState a (bindA k f)
  | AwaitFetch rq k => AwaitFetch rq (fun s => bindA (k s) f)
  | ConsoleError msg k => ConsoleError msg (bindA k f)
  | SetLocationHref href k => SetLocationHref href (bindA k f)
  end.

(** [try { p } catch (error) { h error }]. *)
Fixpoint try_catch {A : Type} (p : Async A) (h : string -> Async A) : Async A :=
  match p with
  | Return a => Return a
  | Throw e => h e
  | SetAuthState a k => SetAuthState a (try_catch k h)
  | AwaitFetch rq k => AwaitFetch rq (fun s => try_catch (k s) h)
  | ConsoleError msg k => ConsoleError msg (try_catch k h)
  | SetLocationHref href k => SetLocationHref href (try_catch k h)
  end.

#[export] Instance Monad_Async : Monad Async :=
  {| ret := @Return; bind := @bindA |}.

#[export] Instance Exception_Async : MonadExc string Async :=
  {| raise := @Throw; catch := @try_catch |}.

Definition setAuthState (a : SetStateAction) : Async unit :=
  SetAuthState a (Return tt).

(** [await fetch(url, init)]: a rejected promise throws at the [await]. *)
Definition fetch (u : string) (i : RequestInit) : Async Response :=
  AwaitFetch {| url := u; init := i |}
    (fun s => match s with
              | Rejected reason => Throw reason
              | Fulfilled response => Return response
              end).

(** [await response.json()]. *)
Definition json (response : Response) : Async Data :=
  match body response with
  | Some data => Return data
  | None => Throw "response.json() rejected"
  end.

Definition console_error (msg : string) : Async unit :=
  ConsoleError msg (Return tt).

Definition set_location_href (href : string) : Async unit :=
  SetLocationHref href (Return tt).

(** *** The provider *)

(** The argument of [useState]. *)
Definition initialState : AuthState :=
  {| isAuthenticated := false;
     user := None;
     token := None;
     loading := true;
     error := None |}.

Definition checkAuth : Async unit :=
  catch
    (setAuthState (Updater (fun prev =>
       {| isAuthenticated := isAuthenticated prev;
          user := user prev;
          token := token prev;
          loading := true;
          error := None |})) ;;
     response <- fetch "/api/v1/auth/check"
                   {| method := "GET"; credentials := "include" |} ;;
     data <- json response ;;
     if authenticated data && JS.truthy_object (data_user data) then
       setAuthState (Value
         {| isAuthenticated := true;
            user := data_user data;
            token := None;
            loading := false;
            error := None |})
     else
       setAuthState (Value
         {| isAuthenticated := false;
            user := None;
            token := None;
            loading := false;
            error := None |}))
    (fun _ =>
       console_error "Auth check failed:" ;;
       setAuthState (Value
         {| isAuthenticated := false;
            user := None;
            token := None;
            loading := false;
            error := Some "Authentication check failed" |})).

(** [`/api/v1/auth/login${params.toString() ? '?' + params.toString() : ''}`]
    for the [params] that [login] builds. *)
Definition loginUrl (redirectUrl : option string) : string :=
  let params : JS.URLSearchParams := [] in
  let params :=
    match redirectUrl with
    | Some r => if JS.truthy_string r then JS.set params "redirect_url" r else params
    | None => params
    end in
  "/api/v1/auth/login"
    ++ (if JS.truthy_string (JS.toString params)
        then "?" ++ JS.toString params
        else EmptyString).

Definition login (redirectUrl : option string) : Async unit :=
  set_location_href (loginUrl redirectUrl).

Definition logout : Async unit :=
  catch
    (_ <- fetch "/api/v1/auth/logout"
            {| method := "POST"; credentials := "include" |} ;;
     setAuthState (Value
       {| isAuthenticated := false;
          user := None;
          token := None;
          loading := false;
          error := None |}) ;;
     set_location_href "/")
    (fun _ =>
       console_error "Logout failed:" ;;
       setAuthState (Value
         {| isAuthenticated := false;
            user := None;
            token := None;
            loading := false;
            error := None |}) ;;
       set_location_href "/").

Definition refreshToken : Async unit :=
  catch
    (response <- fetch "/api/v1/auth/token"
                   {| method := "GET"; credentials := "include" |} ;;
     (if negb (ok response) then raise "Token refresh failed" else ret tt) ;;
     data <- json response ;;
     if success data && JS.truthy_object (data_user data) then
       setAuthState (Updater (fun prev =>
         {| isAuthenticated := isAuthenticated prev;
            user := data_user data;
            token := data_token data;
            loading := loading prev;
            error := None |}))
     else
       setAuthState (Value
         {| isAuthenticated := false;
            user := None;
            token := None;
            loading := false;
            error := Some "Session expired" |}))
    (fun _ =>
       console_error "Token refresh failed:" ;;
       setAuthState (Value
         {| isAuthenticated := false;
            user := None;
            token := None;
            loading := false;
            error := Some "Session expired" |})).

(** [useEffect(() => { checkAuth(); }, [])]: the effect run once when the
    provider mounts.  It returns no cleanup function. *)
Definition mountEffect : Async unit := checkAuth.

(** [interface AuthContextType extends AuthState]. *)
Record AuthContextType : Type := {
  state : AuthState;
  ctx_login : option string -> Async unit;
  ctx_logout : Async unit;
  ctx_checkAuth : Async unit;
  ctx_refreshToken : Async unit
}.

(** [const value = { ...authState, login, logout, checkAuth, refreshToken }]. *)
Definition providerValue (authState : AuthState) : AuthContextType :=
  {| state := authState;
     ctx_login := login;
     ctx_logout := logout;
     ctx_checkAuth := checkAuth;
     ctx_refreshToken := refreshToken |}.

(** [useContext(AuthContext)] in a component below the providers whose
    values are [providers], innermost first.  The context was created
    with the default [undefined]. *)
Definition useContext (providers : list AuthContextType) : option AuthContextType :=
  match providers with
  | [] => None
  | value :: _ => Some value
  end.

(** [useAuth]: [inl] is the message of the [Error] thrown. *)
Definition useAuth (providers : list AuthContextType) : string + AuthContextType :=
  let context := useContext providers in
  match context with
  | None => inl "useAuth must be used within an AuthProvider"
  | Some context => inr context
  end.

(** *** Running one call to completion *)

(** What a call can touch: the state cell of the provider, the value
    last assigned to [window.location.href], the console and the network
    (requests sent, oldest first). *)
Record Browser : Type := {
  authState : AuthState;
  location_href : string;
  console : list string;
  requests : list Request
}.

Definition dispatch (a : SetStateAction) (w : Browser) : Browser :=
  {| authState := apply_action a (authState w);
     location_href := location_href w;
     console := console w;
     requests := requests w |}.

Definition navigate (href : string) (w : Browser) : Browser :=
  {| authState := authState w;
     location_href := href;
     console := console w;
     requests := requests w |}.

Definition log_error (msg : string) (w : Browser) : Browser :=
  {| authState := authState w;
     location_href := location_href w;
     console := console w ++ [msg];
     requests := requests w |}.

Definition send (rq : Request) (w : Browser) : Browser :=
  {| authState := authState w;
     location_href := location_href w;
     console := console w;
     requests := requests w ++ [rq] |}.

(** [run net p w]: execute [p] in [w] with nothing else interleaved; each
    request settles the way the network [net] decides.  The result is
    the browser afterwards and how the promise of [p] settled. *)
Fixpoint run {A : Type} (net : Request -> Settled) (p : Async A) (w : Browser)
  : Browser * (string + A) :=
  match p with
  | Return a => (w, inr a)
  | Throw e => (w, inl e)
  | SetAuthState a k => run net k (dispatch a w)
  | AwaitFetch rq k => run net (k (net rq)) (send rq w)
  | ConsoleError msg k => run net k (log_error msg w)
  | SetLocationHref href k => run net k (navigate href w)
  end.

(** A browser in which the provider has just been created. *)
Definition freshBrowser (href : string) : Browser :=
  {| authState := initialState;
     location_href := href;
     console := [];
     requests := [] |}.

(** *** Interleaved calls and the lifetime of the provider *)

(** The functions the context value exposes. *)
Inductive Op : Type :=
| CheckAuth
| Login (redirectUrl : option string)
| Logout
| RefreshToken.

Definition perform (op : Op) : Async unit :=
  match op with
  | CheckAuth => checkAuth
  | Login redirectUrl => login redirectUrl
  | Logout => logout
  | RefreshToken => refreshToken
  end.

(** A mounted provider over time: the browser, and the calls suspended at
    an [await fetch], oldest first. *)
Record Provider : Type := {
  browser : Browser;
  pending : list (Settled -> Async unit)
}.

(** Run [p] up to its next [await fetch] or to its end.  A call that ends
    by throwing leaves an unhandled rejection and nothing else. *)
Fixpoint advance (p : Async unit) (pv : Provider) : Provider :=
  match p with
  | Return _ => pv
  | Throw _ => pv
  | SetAuthState a k =>
      advance k {| browser := dispatch a (browser pv);
                   pending := pending pv |}
  | AwaitFetch rq k =>
      {| browser := send rq (browser pv);
         pending := pending pv ++ [k] |}
  | ConsoleError msg k =>
      advance k {| browser := log_error msg (browser pv);
                   pending := pending pv |}
  | SetLocationHref href k =>
      advance k {| browser := navigate href (browser pv);
                   pending := pending pv |}
  end.

Inductive Event : Type :=
| Invoke (op : Op)                 (* a component calls a context function *)
| Settle (i : nat) (s : Settled).  (* the [i]-th pending request settles *)

Fixpoint remove_nth {T : Type} (i : nat) (l : list T) : list T :=
  match l, i with
  | [], _ => []
  | _ :: r, 0 => r
  | x :: r, S j => x :: remove_nth j r
  end.

Definition step (pv : Provider) (e : Event) : Provider :=
  match e with
  | Invoke op => advance (perform op) pv
  | Settle i s =>
      match nth_error (pending pv) i with
      | None => pv
      | Some k =>
          advance (k s) {| browser := browser pv;
                           pending := remove_nth i (pending pv) |}
      end
  end.

Definition schedule (es : list Event) (pv : Provider) : Provider :=
  fold_left step es pv.

(** The provider right after mounting: the initial state, and the mount
    effect started. *)
Definition mount (href : string) : Provider :=
  advance mountEffect
    {| browser := freshBrowser href; pending := [] |}.

(** The auth states the UI can observe: those of the provider after
    any interleaving of calls to the operations in [allowed] and of
    settlements. *)
Definition only (allowed : Op -> bool) (e : Event) : bool :=
  match e with
  | Invoke op => allowed op
  | Settle _ _ => true
  end.

Definition reachable_through (allowed : Op -> bool) (s : AuthState) : Prop :=
  exists href es,
    forallb (only allowed) es = true /\
    authState (browser (schedule es (mount href))) = s.

Definition any_op (_ : Op) : bool := true.

Definition not_refreshToken (op : Op) : bool :=
  match op with
  | RefreshToken => false
  | _ => true
  end.

(** Every dispatch of [p], whatever the network answers, maps a state
    satisfying [P] to one satisfying [P]. *)
Fixpoint preserves {A : Type} (P : AuthState -> Prop) (p : Async A) : Prop :=
  match p with
  | Return _ => True
  | Throw _ => True
  | SetAuthState a k =>
      (forall prev, P prev -> P (apply_action a prev)) /\ preserves P k
  | AwaitFetch _ k => forall s, preserves P (k s)
  | ConsoleError _ k => preserves P k
  | SetLocationHref _ k => preserves P k
  end.

(** The invariant [P] holds of a provider: of its current state, and of
    whatever its suspended calls will dispatch. *)
Definition safe (P : AuthState -> Prop) (pv : Provider) : Prop :=
  P (authState (browser pv)) /\
  Forall (fun k => forall s, preserves P (k s)) (pending pv).

End AuthContext.

(* ===================================================================== *)
(** ** components/auth/AuthComponents.tsx                                 *)
(* ===================================================================== *)

Module AuthComponents.

Import AuthContext.

(** [React.ReactNode], as far as the guard looks at it: it only tests a
    node for truthiness.  Numbers are the integer ones. *)
#[warnings="-register-all"]
Inductive ReactNode : Type :=
| RUndefined
| RNull
| RBoolean (b : bool)
| RString (s : string)
| RNumber (n : Z)
| RElement (type : string) (children : list ReactNode)
| RArray (items : list ReactNode).

Definition truthy_node (n : ReactNode) : bool :=
  match n with
  | RUndefined => false
  | RNull => false
  | RBoolean b => b
  | RString s => JS.truthy_string s
  | RNumber n => negb (Z.eqb n 0)
  | RElement _ _ => true
  | RArray _ => true
  end.

(** [a || b]. *)
Definition or_else (a b : ReactNode) : ReactNode :=
  if truthy_node a then a else b.

(** [<LoginButton />] and [<LogoutButton />] as elements; the guard
    creates them without props. *)
Definition LoginButtonElement : ReactNode := RElement "LoginButton" [].
Definition LogoutButtonElement : ReactNode := RElement "LogoutButton" [].

(** [interface AuthGuardProps]; an omitted [fallback] is [RUndefined]. *)
Record AuthGuardProps : Type := {
  children : ReactNode;
  fallback : ReactNode;
  requireRole : option string
}.

Definition dquote : string := String (Ascii.ascii_of_nat 34) EmptyString.

(** What [AuthGuard] returns, one constructor per [return] statement. *)
Inductive GuardView : Type :=
| LoadingSpinner                        (* the spinner *)
| NotAuthenticated (shown : ReactNode)  (* [fallback || <LoginButton />] *)
| AccessDenied (role : string)          (* the access-denied panel *)
| Protected (content : ReactNode).      (* [<>{children}</>] *)

(** The JSX behind each view. *)
Definition render (v : GuardView) : ReactNode :=
  match v with
  | LoadingSpinner => RElement "div" [RElement "div" []]
  | NotAuthenticated shown => shown
  | AccessDenied role =>
      RElement "div"
        [RElement "div"
           [RElement "h1" [RString "Zugriff verweigert"];
            RElement "p"
              [RString ("Sie benötigen die Rolle " ++ dquote);
               RString role;
               RString (dquote ++ " um auf diese Seite zuzugreifen.")];
            LogoutButtonElement]]
  | Protected content => RElement "React.Fragment" [content]
  end.

(** [AuthGuard] below the providers [providers]; [inl] when [useAuth]
    throws. *)
Definition AuthGuard (props : AuthGuardProps) (providers : list AuthContextType)
  : string + GuardView :=
  match useAuth providers with
  | inl e => inl e
  | inr context =>
      let isAuthenticated := isAuthenticated (state context) in
      let user := user (state context) in
      let loading := loading (state context) in
      if loading then inr LoadingSpinner
      else if negb isAuthenticated then
        inr (NotAuthenticated (or_else (fallback props) LoginButtonElement))
      else
        (* [requireRole && user && !user.roles.includes(requireRole)] *)
        match requireRole props, user with
        | Some role, Some u =>
            if JS.truthy_string role && negb (JS.includes (roles u) role)
            then inr (AccessDenied role)
            else inr (Protected (children props))
        | _, _ => inr (Protected (children props))
        end
  end.

End AuthComponents.

(* ===================================================================== *)
(** ** Vocabulary of the properties                                       *)
(* ===================================================================== *)

Import AuthContext AuthComponents.

(** *** Sample data *)

Definition alice : EIAMUser :=
  {| sub := "u-1001";
     name := Some "Alice Muster";
     email := Some "alice.muster@example.ch";
     given_name := Some "Alice";
     family_name := Some "Muster";
     roles := ["presenton-user"];
     department := Some "BIT";
     organization := Some "EFD";
     others := [] |}.

Definition signedIn (u : EIAMUser) : AuthState :=
  {| isAuthenticated := true;
     user := Some u;
     token := None;
     loading := false;
     error := None |}.

Definition signedOut (e : option string) : AuthState :=
  {| isAuthenticated := false;
     user := None;
     token := None;
     loading := false;
     error := e |}.

Definition adminPage : AuthGuardProps :=
  {| children := RElement "AdminPanel" [];
     fallback := RString "Bitte anmelden";
     requireRole := Some "presenton-admin" |}.

(** The guard of C1 as the claim words it: children exactly when
    authenticated and, if a role is required, the user's roles hold it;
    the fallback in every other case. *)
Definition holds_required_role (s : AuthState) (required : option string) : Prop :=
  forall role, required = Some role ->
    exists u, user s = Some u /\ In role (roles u).

Definition guard_as_claimed (props : AuthGuardProps) (s : AuthState) : Prop :=
  loading s = false ->
  (AuthGuard props [providerValue s] = inr (Protected (children props)) <->
   isAuthenticated s = true /\ holds_required_role s (requireRole props)) /\
  (~ (isAuthenticated s = true /\ holds_required_role s (requireRole props)) ->
   AuthGuard props [providerValue s] = inr (NotAuthenticated (fallback props))).

(** The role test the guard makes: it passes when no role is required, when
    the required role is the empty string, when there is no user object, or
    when the user's roles hold the role. *)
Definition passes_role_test (s : AuthState) (required : option string) : Prop :=
  forall role u,
    required = Some role -> role <> EmptyString -> user s = Some u ->
    In role (roles u).

(** *** The three requests the provider sends *)

Definition checkRequest : Request :=
  {| url := "/api/v1/auth/check";
     init := {| method := "GET"; credentials := "include" |} |}.

Definition logoutRequest : Request :=
  {| url := "/api/v1/auth/logout";
     init := {| method := "POST"; credentials := "include" |} |}.

Definition tokenRequest : Request :=
  {| url := "/api/v1/auth/token";
     init := {| method := "GET"; credentials := "include" |} |}.

(** Networks for the examples. *)
Definition offline (_ : Request) : Settled := Rejected "Failed to fetch".

Definition answering (r : Response) (_ : Request) : Settled := Fulfilled r.

Definition refreshed (u : EIAMUser) (t : option string) : Response :=
  {| ok := true;
     body := Some {| authenticated := true; success := true;
                     data_user := Some u; data_token := t |} |}.

Definition serverError : Response := {| ok := false; body := None |}.

(** A browser showing the dashboard to a signed-in user. *)
Definition dashboard : Browser :=
  {| authState := signedIn alice;
     location_href := "/dashboard";
     console := [];
     requests := [] |}.

(** How [refreshToken] reads the settlement of its request: the user and
    token to store, when the response is OK and its body has a truthy
    [success] and a user. *)
Definition refresh_outcome (s : Settled) : option (EIAMUser * option string) :=
  match s with
  | Rejected _ => None
  | Fulfilled response =>
      if ok response then
        match body response with
        | Some data =>
            match data_user data with
            | Some u => if success data then Some (u, data_token data) else None
            | None => None
            end
        | None => None
        end
      else None
  end.

Definition expired : AuthState := signedOut (Some "Session expired").

(** What [checkAuth] makes of the settlement of its request: the user, when
    the body could be read and has a truthy [authenticated] and a user. *)
Definition check_outcome (s : Settled) : option EIAMUser :=
  match s with
  | Rejected _ => None
  | Fulfilled response =>
      match body response with
      | Some data => if authenticated data then data_user data else None
      | None => None
      end
  end.

(** The [error] that [checkAuth] leaves: set only when the request or the
    reading of its body failed. *)
Definition check_error (s : Settled) : option string :=
  match s with
  | Rejected _ => Some "Authentication check failed"
  | Fulfilled response =>
      match body response with
      | Some _ => None
      | None => Some "Authentication check failed"
      end
  end.

(** C7 as worded: the parameter is there exactly when a target was passed. *)
Definition login_as_claimed (redirectUrl : option string) : Prop :=
  Url.has_query_param "redirect_url" (loginUrl redirectUrl) = true <->
  redirectUrl <> None.

(** A state that says authenticated has a user object. *)
Definition has_user_if_authenticated (s : AuthState) : Prop :=
  isAuthenticated s = true -> user s <> None.

Definition token_is_null (s : AuthState) : Prop := token s = None.

(** C2 as worded: no reachable state holds a token. *)
Definition token_always_null_as_claimed : Prop :=
  forall s, reachable_through any_op s -> token_is_null s.

Definition statusOk (u : EIAMUser) : Response :=
  {| ok := true;
     body := Some {| authenticated := true; success := false;
                     data_user := Some u; data_token := None |} |}.

(** *** Where the user object of the state comes from *)

(** The settlements a schedule delivers, in order. *)
Fixpoint received (es : list Event) : list Settled :=
  match es with
  | [] => []
  | Invoke _ :: r => received r
  | Settle _ s :: r => s :: received r
  end.

(** The user of [s] is [null] or the user object of the body of one of the
    responses [rs], the very object. *)
Definition user_from (rs : list Settled) (s : AuthState) : Prop :=
  user s = None \/
  exists response data,
    In (Fulfilled response) rs /\ body response = Some data /\
    data_user data = user s.

(** A user object with the declared properties of [EIAMUser] only. *)
Definition only_principal_fields (u : EIAMUser) : Prop := others u = [].

(** C2 as worded, for the user: no reachable state exposes a user object
    with anything but the principal's fields. *)
Definition user_only_principal_as_claimed : Prop :=
  forall s u,
    reachable_through any_op s -> user s = Some u -> only_principal_fields u.

(** Alice as a server may send her: with a property the interface does not
    declare. *)
Definition aliceAsSent : EIAMUser :=
  {| sub := sub alice;
     name := name alice;
     email := email alice;
     given_name := given_name alice;
     family_name := family_name alice;
     roles := roles alice;
     department := department alice;
     organization := organization alice;
     others := [("session_expires_at", "1767225600")] |}.

(** [preserves], for networks that settle requests in [D] only. *)
Fixpoint preserves_given {A : Type} (D : Settled -> Prop)
  (P : AuthState -> Prop) (p : Async A) : Prop :=
  match p with
  | Return _ => True
  | Throw _ => True
  | SetAuthState a k =>
      (forall prev, P prev -> P (apply_action a prev)) /\ preserves_given D P k
  | AwaitFetch _ k => forall s, D s -> preserves_given D P (k s)
  | ConsoleError _ k => preserves_given D P k
  | SetLocationHref _ k => preserves_given D P k
  end.

Definition safe_given (D : Settled -> Prop) (P : AuthState -> Prop)
  (pv : Provider) : Prop :=
  P (authState (browser pv)) /\
  Forall (fun k => forall s, D s -> preserves_given D P (k s)) (pending pv).

(** *** A refresh answered with an error status *)

(** A response with an error status whose body nevertheless reports a
    successful refresh. *)
Definition refusedYetSuccessful (u : EIAMUser) : Response :=
  {| ok := false;
     body := Some {| authenticated := true; success := true;
                     data_user := Some u; data_token := None |} |}.

(** C9 as worded: whenever the response reports [success = true] with a
    user, [isAuthenticated] and [loading] are as before the call. *)
Definition refresh_keeps_flags_as_claimed : Prop :=
  forall net w response data u,
    net tokenRequest = Fulfilled response ->
    body response = Some data ->
    success data = true ->
    data_user data = Some u ->
    isAuthenticated (authState (fst (run net refreshToken w)))
      = isAuthenticated (authState w) /\
    loading (authState (fst (run net refreshToken w)))
      = loading (authState w).

(* ===================================================================== *)
(** ** Reading the query string back                                      *)
(* ===================================================================== *)

Module Query.

(** Whether the character [c] occurs in [s]. *)
Fixpoint occurs (c : ascii) (s : string) : bool :=
  match s with
  | EmptyString => false
  | String a r => Ascii.eqb a c || occurs c r
  end.

Definition hex_value (c : ascii) : option nat :=
  let n := nat_of_ascii c in
  if JS.between 48 57 n then Some (n - 48)
  else if JS.between 65 70 n then Some (n - 55)
  else if JS.between 97 102 n then Some (n - 87)
  else None.

(** The decoder of [application/x-www-form-urlencoded]: [+] is a space,
    [%XY] is the byte with hexadecimal digits [XY], and a [%] not followed
    by two such digits stands for itself. *)
Fixpoint form_decode (s : string) : string :=
  match s with
  | EmptyString => EmptyString
  | String c r =>
      if Ascii.eqb c "+" then String " " (form_decode r)
      else if Ascii.eqb c "%" then
        match r with
        | String h (String l r') =>
            match hex_value h, hex_value l with
            | Some a, Some b => String (ascii_of_nat (16 * a + b)) (form_decode r')
            | _, _ => String c (form_decode r)
            end
        | _ => String c (form_decode r)
        end
      else String c (form_decode r)
  end.

Definition pair_of (piece : string) : string * string :=
  (form_decode (Url.before_first "=" piece),
   form_decode (match Url.after_first "=" piece with
                | Some v => v
                | None => EmptyString
                end)).

(** The name-value pairs a server (or [new URL(url).searchParams]) reads
    from the query string of [url]; empty pieces are skipped. *)
Definition query_pairs (url : string) : list (string * string) :=
  match Url.after_first "?" url with
  | None => []
  | Some q => map pair_of (filter JS.truthy_string (Url.split "&" q))
  end.

End Query.

(* ===================================================================== *)
(** ** components/auth/AuthComponents.tsx: buttons, menu and status       *)
(* ===================================================================== *)

Module AuthWidgets.

Import AuthContext AuthComponents.

(** *** String operations of JavaScript used by [UserMenu]

    [toUpperCase] and indexing are modelled for strings of ASCII
    characters, where a character is one UTF-16 code unit and upper-casing
    touches the letters [a]-[z] only. *)

Fixpoint all_chars (p : ascii -> bool) (s : string) : bool :=
  match s with
  | EmptyString => true
  | String c r => p c && all_chars p r
  end.

Definition ascii_only (s : string) : Prop :=
  all_chars (fun c => Nat.ltb (nat_of_ascii c) 128) s = true.

Definition ascii_only_opt (o : option string) : Prop :=
  match o with
  | Some s => ascii_only s
  | None => True
  end.

Definition only_spaces (s : string) : Prop :=
  all_chars (fun c => Ascii.eqb c " ") s = true.

(** [n[0]]: [undefined] on the empty string. *)
Definition charAt0 (n : string) : option ascii :=
  match n with
  | EmptyString => None
  | String c _ => Some c
  end.

(** [xs.join('')]: an [undefined] element contributes nothing. *)
Fixpoint join (xs : list (option ascii)) : string :=
  match xs with
  | [] => EmptyString
  | None :: r => join r
  | Some c :: r => String c (join r)
  end.

Definition upper (c : ascii) : ascii :=
  let n := nat_of_ascii c in
  if JS.between 97 122 n then ascii_of_nat (n - 32) else c.

Fixpoint toUpperCase (s : string) : string :=
  match s with
  | EmptyString => EmptyString
  | String c r => String (upper c) (toUpperCase r)
  end.

(** [s.slice(0, 2)]. *)
Definition slice_0_2 (s : string) : string :=
  match s with
  | String a (String b _) => String a (String b EmptyString)
  | _ => s
  end.

(** [a || b] on optional strings. *)
Definition or_string (a b : option string) : option string :=
  if JS.truthy_opt_string a then a else b.

(** The string behind an optional string that tested truthy. *)
Definition the (o : option string) : string :=
  match o with
  | Some s => s
  | None => EmptyString
  end.

(** *** [LoginButton] and [LogoutButton] *)

(** [interface LoginButtonProps]. *)
Record LoginButtonProps : Type := {
  redirectUrl : option string;
  className : option string
}.

(** A default value [className = ''] of a destructured prop. *)
Definition classOrEmpty (className : option string) : string :=
  match className with
  | Some c => c
  | None => EmptyString
  end.

(** What a rendered [<Button>] amounts to. *)
Record ButtonView : Type := {
  onClick : Async unit;
  disabled : bool;
  variant : option string;
  buttonClass : string;
  label : string
}.

Definition LoginButton (props : LoginButtonProps) (providers : list AuthContextType)
  : string + ButtonView :=
  match useAuth providers with
  | inl e => inl e
  | inr context =>
      let login := ctx_login context in
      let loading := loading (state context) in
      inr {| onClick := login (redirectUrl props);
             disabled := loading;
             variant := None;
             buttonClass := "flex items-center gap-2 " ++ classOrEmpty (className props);
             label := if loading then "Anmelden..." else "Anmelden" |}
  end.

Definition LogoutButton (className : option string) (providers : list AuthContextType)
  : string + ButtonView :=
  match useAuth providers with
  | inl e => inl e
  | inr context =>
      let logout := ctx_logout context in
      let loading := loading (state context) in
      inr {| onClick := logout;
             disabled := loading;
             variant := Some "outline";
             buttonClass := "flex items-center gap-2 " ++ classOrEmpty className;
             label := if loading then "Abmelden..." else "Abmelden" |}
  end.

(** The props of the [<LoginButton />] that [AuthGuard] creates: none. *)
Definition guardLoginButtonProps : LoginButtonProps :=
  {| redirectUrl := None; className := None |}.

(** *** [UserMenu] *)

(** [userInitials]. *)
Definition userInitials (user : EIAMUser) : string :=
  if JS.truthy_opt_string (name user) then
    slice_0_2 (toUpperCase (join (map charAt0 (Url.split " " (the (name user))))))
  else if JS.truthy_opt_string (email user) then
    toUpperCase (slice_0_2 (the (email user)))
  else "U".

(** The profile menu: the texts it shows and its logout item. *)
Record ProfileMenu : Type := {
  triggerClass : string;
  avatarAlt : option string;        (* [alt={user.name || user.email}] *)
  avatarFallback : string;          (* [{userInitials}] *)
  heading : string;                 (* [{user.name || 'Unbekannter Benutzer'}] *)
  emailLine : option string;        (* [{user.email}] *)
  departmentLine : option string;   (* [{user.department && <p>...</p>}] *)
  logoutDisabled : bool;
  logoutLabel : string;
  logoutClick : Async unit
}.

Inductive MenuView : Type :=
| MenuLogin (props : LoginButtonProps)   (* [<LoginButton className={className} />] *)
| MenuProfile (menu : ProfileMenu).

Definition UserMenu (className : option string) (providers : list AuthContextType)
  : string + MenuView :=
  match useAuth providers with
  | inl e => inl e
  | inr context =>
      let logout := ctx_logout context in
      let loading := loading (state context) in
      match user (state context) with
      | None =>
          inr (MenuLogin {| redirectUrl := None;
                            className := Some (classOrEmpty className) |})
      | Some user =>
          inr (MenuProfile
            {| triggerClass := "relative h-8 w-8 rounded-full " ++ classOrEmpty className;
               avatarAlt := or_string (name user) (email user);
               avatarFallback := userInitials user;
               heading := the (or_string (name user) (Some "Unbekannter Benutzer"));
               emailLine := email user;
               departmentLine :=
                 if JS.truthy_opt_string (department user) then department user
                 else None;
               logoutDisabled := loading;
               logoutLabel := if loading then "Abmelden..." else "Abmelden";
               logoutClick := logout |})
      end
  end.

(** *** [AuthStatus] *)

Record StatusView : Type := {
  statusClass : string;
  text : string
}.

(** [user?.name || user?.email || 'Unbekannt']. *)
Definition shownName (user : option EIAMUser) : string :=
  let optName := match user with Some u => name u | None => None end in
  let optEmail := match user with Some u => email u | None => None end in
  the (or_string (or_string optName optEmail) (Some "Unbekannt")).

Definition AuthStatus (className : option string) (providers : list AuthContextType)
  : string + StatusView :=
  match useAuth providers with
  | inl e => inl e
  | inr context =>
      let isAuthenticated := isAuthenticated (state context) in
      let user := user (state context) in
      let loading := loading (state context) in
      if loading then
        inr {| statusClass := "text-sm text-gray-500 " ++ classOrEmpty className;
               text := "Lade Authentifizierungsstatus..." |}
      else if negb isAuthenticated then
        inr {| statusClass := "text-sm text-red-600 " ++ classOrEmpty className;
               text := "Nicht authentifiziert" |}
      else
        inr {| statusClass := "text-sm text-green-600 " ++ classOrEmpty className;
               text := "Angemeldet als: " ++ shownName user |}
  end.

End AuthWidgets.

(** *** Further sample data and vocabulary *)

(** The status endpoint answering that nobody is logged in. *)
Definition notLoggedIn : Response :=
  {| ok := true;
     body := Some {| authenticated := false; success := false;
                     data_user := None; data_token := None |} |}.

(** The request an operation sends, if any. *)
Definition request_of (op : Op) : list Request :=
  match op with
  | CheckAuth => [checkRequest]
  | Login _ => []
  | Logout => [logoutRequest]
  | RefreshToken => [tokenRequest]
  end.

(** Whether a request failed in transit. *)
Definition rejected (s : Settled) : bool :=
  match s with
  | Rejected _ => true
  | Fulfilled _ => false
  end.

(** Whether nothing could be read from the request: it failed in transit or
    its body was not readable. *)
Definition unreadable (s : Settled) : bool :=
  match s with
  | Rejected _ => true
  | Fulfilled response =>
      match body response with
      | Some _ => false
      | None => true
      end
  end.

(** A provider around a given browser, with nothing pending. *)
Definition idle (w : Browser) : Provider :=
  {| browser := w; pending := [] |}.

(* ===================================================================== *)
(** ** Properties                                                         *)
(* ===================================================================== *)

(** *** [useAuth] *)

(** C10: without an [AuthProvider] above the caller the context value is
    [undefined], and [useAuth] throws its error; it never returns a context
    value then. *)
Theorem useAuth_without_provider_throws :
  useContext [] = None /\
  useAuth [] = inl "useAuth must be used within an AuthProvider" /\
  forall context, useAuth [] <> inr context.
Proof.
  repeat split; intros context H; discriminate H.
Qed.

(** Below a provider, [useAuth] hands out the value of the innermost one. *)
Lemma useAuth_below_provider value providers :
  useAuth (value :: providers) = inr value.
Proof. reflexivity. Qed.

(** *** [AuthGuard] *)

Lemma includes_In xs x : JS.includes xs x = true <-> In x xs.
Proof.
  unfold JS.includes. rewrite existsb_exists. split.
  - intros [y [Hy Heq]]. apply String.eqb_eq in Heq. now subst.
  - intros H. exists x. split; [assumption | apply String.eqb_refl].
Qed.

Lemma truthy_string_nonempty s : JS.truthy_string s = true <-> s <> EmptyString.
Proof.
  destruct s; simpl; split; intros H; try reflexivity; try discriminate;
    now auto.
Qed.

(** C1, counterexample: a signed-in user without the required role gets the
    access-denied panel, which is neither the children nor the fallback. *)
Lemma AuthGuard_missing_role_is_not_fallback :
  AuthGuard adminPage [providerValue (signedIn alice)]
    = inr (AccessDenied "presenton-admin") /\
  ~ guard_as_claimed adminPage (signedIn alice).
Proof.
  split; [reflexivity |].
  intros H. destruct (H eq_refl) as [_ Hfallback].
  assert (Hno : ~ (isAuthenticated (signedIn alice) = true /\
                   holds_required_role (signedIn alice) (requireRole adminPage))).
  { intros [_ Hrole]. destruct (Hrole "presenton-admin" eq_refl) as [u [Hu Hin]].
    inversion Hu; subst u. simpl in Hin.
    destruct Hin as [Hin | []]. discriminate Hin. }
  specialize (Hfallback Hno). discriminate Hfallback.
Qed.

(** C1, amended: with [loading = false] the guard shows the children
    exactly when the state is authenticated and the role test passes; when
    not authenticated it shows the fallback, or the login button if no
    truthy fallback was given; when authenticated with a user lacking a
    required non-empty role it shows the access-denied panel. *)
Theorem AuthGuard_decision (props : AuthGuardProps) (s : AuthState) :
  loading s = false ->
  (AuthGuard props [providerValue s] = inr (Protected (children props)) <->
   isAuthenticated s = true /\ passes_role_test s (requireRole props)) /\
  (isAuthenticated s = false ->
   AuthGuard props [providerValue s]
     = inr (NotAuthenticated
              (if truthy_node (fallback props) then fallback props
               else LoginButtonElement))) /\
  (forall role u,
     isAuthenticated s = true -> requireRole props = Some role ->
     role <> EmptyString -> user s = Some u -> ~ In role (roles u) ->
     AuthGuard props [providerValue s] = inr (AccessDenied role)).
Proof.
  intros Hload. unfold AuthGuard, passes_role_test. simpl. rewrite Hload.
  destruct (isAuthenticated s) eqn:Hauth; simpl.
  - split; [| split].
    + destruct (requireRole props) as [role |] eqn:Hreq.
      * destruct (user s) as [u |] eqn:Hu.
        -- destruct (JS.truthy_string role) eqn:Ht; simpl.
           ++ destruct (JS.includes (roles u) role) eqn:Hinc; simpl.
              ** split; [intros _ | reflexivity]. split; [reflexivity |].
                 intros r u' Hr _ Hu'. inversion Hr; inversion Hu'; subst.
                 now apply includes_In.
              ** split; [discriminate |]. intros [_ H]. exfalso.
                 assert (Hin : In role (roles u)).
                 { apply (H role u eq_refl); [| reflexivity].
                   now apply truthy_string_nonempty. }
                 apply includes_In in Hin. congruence.
           ++ split; [intros _ | reflexivity]. split; [reflexivity |].
              intros r u' Hr Hne. inversion Hr; subst.
              apply truthy_string_nonempty in Hne. congruence.
        -- split; [intros _ | reflexivity]. split; [reflexivity |].
           intros r u' _ _ Hu'. discriminate Hu'.
      * split; [intros _ | reflexivity]. split; [reflexivity |].
        intros r u' Hr. discriminate Hr.
    + discriminate.
    + intros role u _ Hreq Hne Hu Hnin. rewrite Hreq, Hu.
      apply truthy_string_nonempty in Hne. rewrite Hne. simpl.
      destruct (JS.includes (roles u) role) eqn:Hinc; [| reflexivity].
      apply includes_In in Hinc. contradiction.
  - split; [| split].
    + split; [discriminate | intros [H _]; discriminate H].
    + intros _. reflexivity.
    + intros role u H. discriminate H.
Qed.

(** The admin page, shown to a signed-in user who is no admin. *)
Lemma AuthGuard_decision_witness :
  loading (signedIn alice) = false /\
  AuthGuard adminPage [providerValue (signedIn alice)]
    = inr (AccessDenied "presenton-admin").
Proof.
  split; [reflexivity |].
  destruct (AuthGuard_decision adminPage (signedIn alice) eq_refl)
    as [_ [_ Hdenied]].
  apply (Hdenied "presenton-admin" alice); try reflexivity.
  - discriminate.
  - simpl. intros [H | []]. discriminate H.
Defined.

(** C8: with [loading = false], [isAuthenticated = true] and no user
    object, the guard shows the children whatever role is required. *)
Theorem AuthGuard_null_user_skips_role_check (props : AuthGuardProps) (s : AuthState) :
  loading s = false -> isAuthenticated s = true -> user s = None ->
  AuthGuard props [providerValue s] = inr (Protected (children props)).
Proof.
  intros Hload Hauth Huser. unfold AuthGuard. simpl.
  rewrite Hload, Hauth, Huser. simpl.
  destruct (requireRole props); reflexivity.
Qed.

(** The admin page under a state that is authenticated without a user. *)
Lemma AuthGuard_null_user_skips_role_check_witness :
  AuthGuard adminPage
    [providerValue {| isAuthenticated := true; user := None; token := None;
                      loading := false; error := None |}]
    = inr (Protected (RElement "AdminPanel" [])).
Proof.
  apply (AuthGuard_null_user_skips_role_check adminPage
           {| isAuthenticated := true; user := None; token := None;
              loading := false; error := None |});
    reflexivity.
Defined.

(** *** One call, run to completion *)

Ltac run_call :=
  cbn [run bind ret catch raise Monad_Async Exception_Async bindA try_catch
       setAuthState fetch json console_error set_location_href].

(** C4: however the request to the logout endpoint settles (rejected, or
    fulfilled with any response), [logout] completes, the auth state is
    the signed-out one with no error, and the window is sent to ["/"]. *)
Theorem logout_always_resets (net : Request -> Settled) (w : Browser) :
  let w' := fst (run net logout w) in
  snd (run net logout w) = inr tt /\
  authState w' = signedOut None /\
  isAuthenticated (authState w') = false /\
  user (authState w') = None /\
  token (authState w') = None /\
  error (authState w') = None /\
  location_href w' = "/" /\
  requests w' = (requests w ++ [logoutRequest])%list.
Proof.
  unfold logout. run_call.
  destruct (net _) as [reason | response]; run_call; cbn;
    repeat split; reflexivity.
Qed.

Lemma run_refreshToken (net : Request -> Settled) (w : Browser) :
  authState (fst (run net refreshToken w)) =
    match refresh_outcome (net tokenRequest) with
    | Some (u, t) =>
        {| isAuthenticated := isAuthenticated (authState w);
           user := Some u;
           token := t;
           loading := loading (authState w);
           error := None |}
    | None => expired
    end.
Proof.
  unfold refreshToken, refresh_outcome. run_call. fold tokenRequest.
  destruct (net tokenRequest) as [reason | response]; run_call;
    [reflexivity |].
  destruct (ok response); run_call; [| reflexivity].
  unfold json. destruct (body response) as [data |]; run_call;
    [| reflexivity].
  destruct (data_user data) as [u |] eqn:Hu.
  - destruct (success data); reflexivity.
  - rewrite andb_false_r. reflexivity.
Qed.

(** C5: when the request of [refreshToken] is rejected, or the response is
    not OK, or its body cannot be read, or the body lacks a true [success]
    or a user, the auth state afterwards is unauthenticated with no user
    and no token. *)
Theorem refreshToken_failure_degrades (net : Request -> Settled) (w : Browser) :
  ((exists reason, net tokenRequest = Rejected reason) \/
   (exists response,
      net tokenRequest = Fulfilled response /\
      (ok response = false \/
       body response = None \/
       exists data, body response = Some data /\
                    (success data = false \/ data_user data = None)))) ->
  let s' := authState (fst (run net refreshToken w)) in
  isAuthenticated s' = false /\ user s' = None /\ token s' = None /\
  loading s' = false /\ error s' = Some "Session expired".
Proof.
  intros Hfail. cbv zeta. rewrite run_refreshToken.
  assert (Hout : refresh_outcome (net tokenRequest) = None).
  { destruct Hfail as [[reason ->] | [response [-> Hbad]]]; [reflexivity |].
    unfold refresh_outcome.
    destruct Hbad as [-> | [-> | [data [-> [Hs | Hu]]]]].
    - reflexivity.
    - destruct (ok response); reflexivity.
    - destruct (ok response), (data_user data); rewrite ?Hs; reflexivity.
    - rewrite Hu. destruct (ok response); reflexivity. }
  rewrite Hout. repeat split; reflexivity.
Qed.

(** A refresh answered with a server error, from the dashboard. *)
Lemma refreshToken_failure_degrades_witness :
  let s' := authState (fst (run (answering serverError) refreshToken dashboard)) in
  isAuthenticated s' = false /\ user s' = None /\ token s' = None /\
  loading s' = false /\ error s' = Some "Session expired".
Proof.
  apply (refreshToken_failure_degrades (answering serverError) dashboard).
  right. exists serverError. split; [reflexivity | left; reflexivity].
Defined.

(** C9, counterexample: the response has an error status, and its body
    reports [success = true] with a user.  [refreshToken] throws on
    [!response.ok] before it reads the body, and the signed-in state
    becomes the expired one: [isAuthenticated] goes from true to false. *)
Lemma refreshToken_error_status_wins :
  authState dashboard = signedIn alice /\
  authState (fst (run (answering (refusedYetSuccessful alice)) refreshToken
                    dashboard))
    = expired /\
  ~ refresh_keeps_flags_as_claimed.
Proof.
  repeat split. intros Hclaim.
  destruct (Hclaim (answering (refusedYetSuccessful alice)) dashboard
              (refusedYetSuccessful alice)
              {| authenticated := true; success := true;
                 data_user := Some alice; data_token := None |}
              alice eq_refl eq_refl eq_refl eq_refl) as [H _].
  discriminate H.
Qed.

(** C9, amended: when the response of [refreshToken] is OK and reports
    [success = true] with a user, the call leaves [isAuthenticated] and
    [loading] as they were and sets [user], [token] and [error]; started
    from an unauthenticated state it leaves the state unauthenticated. *)
Theorem refreshToken_success_keeps_flags
  (net : Request -> Settled) (w : Browser)
  (response : Response) (data : Data) (u : EIAMUser) :
  net tokenRequest = Fulfilled response ->
  ok response = true ->
  body response = Some data ->
  success data = true ->
  data_user data = Some u ->
  let s := authState w in
  let s' := authState (fst (run net refreshToken w)) in
  isAuthenticated s' = isAuthenticated s /\
  loading s' = loading s /\
  user s' = Some u /\
  token s' = data_token data /\
  error s' = None /\
  (isAuthenticated s = false -> isAuthenticated s' = false).
Proof.
  intros Hnet Hok Hbody Hsucc Huser. cbv zeta. rewrite run_refreshToken.
  unfold refresh_outcome. rewrite Hnet, Hok, Hbody, Huser, Hsucc.
  repeat split. intros H. exact H.
Qed.

(** A successful refresh in a provider that has not signed anybody in. *)
Lemma refreshToken_success_keeps_flags_witness :
  isAuthenticated
    (authState (fst (run (answering (refreshed alice None)) refreshToken
                       (freshBrowser "/")))) = false.
Proof.
  pose proof (refreshToken_success_keeps_flags
                (answering (refreshed alice None)) (freshBrowser "/")
                (data := {| authenticated := true; success := true;
                            data_user := Some alice; data_token := None |})
                eq_refl eq_refl eq_refl eq_refl eq_refl) as H.
  cbv zeta in H. destruct H as [_ [_ [_ [_ [_ H]]]]].
  apply H. reflexivity.
Defined.

Lemma run_checkAuth (net : Request -> Settled) (w : Browser) :
  authState (fst (run net checkAuth w)) =
    match check_outcome (net checkRequest) with
    | Some u => signedIn u
    | None => signedOut (check_error (net checkRequest))
    end
  /\ requests (fst (run net checkAuth w)) = (requests w ++ [checkRequest])%list
  /\ location_href (fst (run net checkAuth w)) = location_href w
  /\ snd (run net checkAuth w) = inr tt.
Proof.
  unfold checkAuth, check_outcome, check_error. run_call. fold checkRequest.
  destruct (net checkRequest) as [reason | response]; run_call;
    [repeat split |].
  unfold json. destruct (body response) as [data |]; run_call;
    [| repeat split].
  destruct (authenticated data); cbn [andb].
  - destruct (data_user data) as [u |] eqn:Hu; cbn; rewrite ?Hu; repeat split.
  - cbn. repeat split.
Qed.

(** Settling the request of the mount effect gives the browser that
    running the effect to completion gives. *)
Lemma settle_after_mount (net : Request -> Settled) (href : string) :
  browser (step (mount href) (Settle 0 (net checkRequest)))
    = fst (run net mountEffect (freshBrowser href)).
Proof.
  unfold mount, mountEffect, checkAuth, step, checkRequest. run_call. cbn.
  destruct (net _) as [reason | response]; cbn; [reflexivity |].
  unfold json. destruct (body response) as [data |]; cbn; [| reflexivity].
  destruct (authenticated data && JS.truthy_object (data_user data));
    reflexivity.
Qed.

(** C6: mounting the provider sends exactly one request, to the status
    endpoint.  Once it settles, the state is authenticated with the user of
    the response exactly when the body has [authenticated = true] and a
    user; otherwise, and also when the request fails, it is unauthenticated
    with no user.  In both cases [loading] is false. *)
Theorem mount_checks_status_once (net : Request -> Settled) (href : string) :
  let w' := fst (run net mountEffect (freshBrowser href)) in
  requests w' = [checkRequest] /\
  loading (authState w') = false /\
  (forall u,
     (isAuthenticated (authState w') = true /\ user (authState w') = Some u) <->
     (exists response data,
        net checkRequest = Fulfilled response /\ body response = Some data /\
        authenticated data = true /\ data_user data = Some u)) /\
  isAuthenticated (authState w')
    = JS.truthy_object (check_outcome (net checkRequest)) /\
  user (authState w') = check_outcome (net checkRequest) /\
  requests (browser (mount href)) = [checkRequest] /\
  browser (step (mount href) (Settle 0 (net checkRequest))) = w'.
Proof.
  cbv zeta. unfold mountEffect.
  destruct (run_checkAuth net (freshBrowser href)) as [Hst [Hrq _]].
  rewrite Hst, Hrq. split; [reflexivity |].
  split; [destruct (check_outcome _); reflexivity |].
  split; [| split; [| split; [| split]]].
  - intros u. unfold check_outcome.
    destruct (net checkRequest) as [reason | response].
    + split; [intros [H _]; discriminate H |].
      intros [r [d [H _]]]. discriminate H.
    + destruct (body response) as [data |] eqn:Hbody.
      * destruct (authenticated data) eqn:Hauth.
        -- destruct (data_user data) as [u' |] eqn:Hu.
           ++ split.
              ** intros [_ H]. exists response, data. cbn in H.
                 inversion H; subst. rewrite Hu. auto.
              ** intros [r [d [Hr [Hb [_ Hd]]]]]. inversion Hr; subst r.
                 rewrite Hbody in Hb. inversion Hb; subst d.
                 rewrite Hu in Hd. inversion Hd; subst. split; reflexivity.
           ++ split; [intros [H _]; discriminate H |].
              intros [r [d [Hr [Hb [_ Hd]]]]]. inversion Hr; subst r.
              rewrite Hbody in Hb. inversion Hb; subst d. congruence.
        -- split; [intros [H _]; discriminate H |].
           intros [r [d [Hr [Hb [Ha _]]]]]. inversion Hr; subst r.
           rewrite Hbody in Hb. inversion Hb; subst d. congruence.
      * split; [intros [H _]; discriminate H |].
        intros [r [d [Hr [Hb _]]]]. inversion Hr; subst r. congruence.
  - destruct (check_outcome _); reflexivity.
  - destruct (check_outcome _); reflexivity.
  - reflexivity.
  - apply settle_after_mount.
Qed.

(** *** [login] *)

Example loginUrl_upload :
  loginUrl (Some "/upload?tab=1 &lang=de")
    = "/api/v1/auth/login?redirect_url=%2Fupload%3Ftab%3D1+%26lang%3Dde".
Proof. reflexivity. Qed.

Example loginUrl_omitted : loginUrl None = "/api/v1/auth/login".
Proof. reflexivity. Qed.

Example query_names_upload :
  Url.query_names (loginUrl (Some "/upload?tab=1 &lang=de")) = ["redirect_url"].
Proof. reflexivity. Qed.

Example set_overwrites :
  JS.set [("a", "1"); ("redirect_url", "/x"); ("redirect_url", "/y")]
         "redirect_url" "/z"
    = [("a", "1"); ("redirect_url", "/z")].
Proof. reflexivity. Qed.

Lemma loginUrl_cases (redirectUrl : option string) :
  loginUrl redirectUrl =
    match redirectUrl with
    | Some (String c r) =>
        "/api/v1/auth/login?redirect_url=" ++ JS.form_encode (String c r)
    | _ => "/api/v1/auth/login"
    end.
Proof.
  destruct redirectUrl as [[| c r] |]; reflexivity.
Qed.

(** A query that starts with [redirect_url=] has a pair of that name,
    whatever follows. *)
Lemma redirect_url_found (rest : string) :
  Url.has_query_param "redirect_url"
    ("/api/v1/auth/login?redirect_url=" ++ rest) = true.
Proof.
  unfold Url.has_query_param, Url.query_names. cbn.
  destruct (Url.split "&" rest) as [| p ps] eqn:Hsplit; reflexivity.
Qed.

(** C7, counterexample: [login("")] passes a target, the empty string; the
    guard [if (redirectUrl)] takes it for absent and the address has no
    [redirect_url]. *)
Lemma login_empty_target_has_no_param :
  location_href (fst (run offline (login (Some EmptyString)) dashboard))
    = "/api/v1/auth/login" /\
  ~ login_as_claimed (Some EmptyString).
Proof.
  split; [reflexivity |].
  intros [_ H]. assert (Hsome : Some EmptyString <> None) by discriminate.
  specialize (H Hsome). discriminate H.
Qed.

(** C7, amended: [login] leaves the auth state (and the console and the
    network) untouched and assigns the address of the login endpoint to the
    window; that address carries a [redirect_url] parameter exactly when a
    non-empty redirect target was passed, and then its value is the
    form-encoded target. *)
Theorem login_only_navigates
  (net : Request -> Settled) (w : Browser) (redirectUrl : option string) :
  let w' := fst (run net (login redirectUrl) w) in
  authState w' = authState w /\
  requests w' = requests w /\
  console w' = console w /\
  location_href w' = loginUrl redirectUrl /\
  Url.has_query_param "redirect_url" (location_href w')
    = JS.truthy_opt_string redirectUrl /\
  loginUrl redirectUrl =
    (if JS.truthy_opt_string redirectUrl
     then "/api/v1/auth/login?redirect_url="
            ++ JS.form_encode (match redirectUrl with
                               | Some r => r
                               | None => EmptyString
                               end)
     else "/api/v1/auth/login").
Proof.
  cbv zeta. unfold login. run_call. cbn [fst navigate authState requests
    console location_href].
  repeat split.
  - rewrite loginUrl_cases. destruct redirectUrl as [[| c r] |];
      try reflexivity.
    apply redirect_url_found.
  - rewrite loginUrl_cases. destruct redirectUrl as [[| c r] |]; reflexivity.
Qed.

(** *** Invariants of the interleaved provider *)

Section Invariant.

Variable P : AuthState -> Prop.
Variable allowed : Op -> bool.

Hypothesis allowed_preserve :
  forall op, allowed op = true -> preserves P (perform op).

Lemma advance_safe (p : Async unit) :
  forall pv, preserves P p -> safe P pv -> safe P (advance p pv).
Proof.
  induction p as [a | e | a k IH | rq k _ | msg k IH | href k IH];
    intros pv Hp [Hstate Hpend]; cbn [advance].
  - split; assumption.
  - split; assumption.
  - destruct Hp as [Ha Hk]. apply IH; [exact Hk |].
    split; [apply Ha; exact Hstate | exact Hpend].
  - split; [exact Hstate |]. cbn [pending].
    apply Forall_app. split; [exact Hpend |].
    constructor; [exact Hp | constructor].
  - apply IH; [exact Hp | split; assumption].
  - apply IH; [exact Hp | split; assumption].
Qed.

Lemma Forall_remove_nth {T : Type} (Q : T -> Prop) (i : nat) :
  forall l, Forall Q l -> Forall Q (remove_nth i l).
Proof.
  induction i as [| j IH]; intros l Hl; destruct Hl as [| x r Hx Hr]; cbn;
    try constructor; auto.
Qed.

Lemma step_safe (pv : Provider) (e : Event) :
  only allowed e = true -> safe P pv -> safe P (step pv e).
Proof.
  intros He [Hstate Hpend]. destruct e as [op | i s]; cbn in He |- *.
  - apply advance_safe; [apply allowed_preserve; exact He | split; assumption].
  - destruct (nth_error (pending pv) i) as [k |] eqn:Hk; [| split; assumption].
    apply advance_safe.
    + apply nth_error_In in Hk.
      rewrite Forall_forall in Hpend. apply (Hpend k Hk).
    + split; [exact Hstate | apply Forall_remove_nth; exact Hpend].
Qed.

Lemma schedule_safe (es : list Event) :
  forall pv,
    forallb (only allowed) es = true -> safe P pv -> safe P (schedule es pv).
Proof.
  induction es as [| e es IH]; intros pv Hes Hpv; cbn in Hes |- *.
  - exact Hpv.
  - apply andb_true_iff in Hes. destruct Hes as [He Hes].
    apply IH; [exact Hes | apply step_safe; assumption].
Qed.

Hypothesis initially : P initialState.
Hypothesis checkAuth_preserve : preserves P checkAuth.

Lemma reachable_invariant (s : AuthState) :
  reachable_through allowed s -> P s.
Proof.
  intros [href [es [Hes <-]]].
  assert (Hmount : safe P (mount href)).
  { unfold mount, mountEffect. apply advance_safe; [exact checkAuth_preserve |].
    split; [exact initially | constructor]. }
  exact (proj1 (schedule_safe es Hes Hmount)).
Qed.

End Invariant.

Ltac step_call :=
  cbn [preserves perform checkAuth login logout refreshToken
       bind ret catch raise Monad_Async Exception_Async bindA try_catch
       setAuthState fetch console_error set_location_href apply_action].

Ltac dispatches :=
  step_call;
  repeat match goal with
         | |- _ /\ _ => split
         | |- forall _, _ => intro
         | |- True => exact I
         | s : Settled |- _ => destruct s; step_call
         | |- context [json ?r] => unfold json
         | |- context [ok ?r] => destruct (ok r); step_call
         | |- context [body ?r] => destruct (body r); step_call
         | |- context [if ?b then _ else _] => destruct b eqn:?; step_call
         end.

Ltac user_present :=
  match goal with
  | H : _ && JS.truthy_object (data_user ?d) = true |- _ =>
      apply andb_true_iff in H; destruct H as [_ H];
      destruct (data_user d); [discriminate | discriminate H]
  end.

(** Under every interleaving of the four operations, a state that says
    authenticated has a user object: the state the guard of C8 looks at is
    not one the provider produces. *)
Lemma authenticated_has_user (s : AuthState) :
  reachable_through any_op s -> has_user_if_authenticated s.
Proof.
  apply reachable_invariant.
  - intros [| r | |] _; unfold has_user_if_authenticated; dispatches;
      cbn in *; try discriminate; try assumption; auto;
      try user_present.
  - discriminate.
  - unfold has_user_if_authenticated; dispatches;
      cbn in *; try discriminate; try assumption; auto;
      try user_present.
Qed.

(** *** The token held by the client *)

(** C2, counterexample: sign-in confirmed by the status check, then a
    refresh whose response carries a token; the state now holds it.  And a
    status response whose user object carries a further property: the state
    exposes the object as it was sent. *)
Lemma refreshToken_stores_the_token :
  authState (browser (schedule
     [Settle 0 (Fulfilled (statusOk alice));
      Invoke RefreshToken;
      Settle 0 (Fulfilled (refreshed alice (Some "eyJhbGciOiJSUzI1NiJ9.e30.c2ln")))]
     (mount "/")))
    = {| isAuthenticated := true;
         user := Some alice;
         token := Some "eyJhbGciOiJSUzI1NiJ9.e30.c2ln";
         loading := false;
         error := None |} /\
  ~ token_always_null_as_claimed /\
  authState (browser (schedule
     [Settle 0 (Fulfilled (statusOk aliceAsSent))] (mount "/")))
    = signedIn aliceAsSent /\
  ~ only_principal_fields aliceAsSent /\
  ~ user_only_principal_as_claimed.
Proof.
  assert (Hrun :
    authState (browser (schedule
       [Settle 0 (Fulfilled (statusOk alice));
        Invoke RefreshToken;
        Settle 0 (Fulfilled (refreshed alice (Some "eyJhbGciOiJSUzI1NiJ9.e30.c2ln")))]
       (mount "/")))
      = {| isAuthenticated := true;
           user := Some alice;
           token := Some "eyJhbGciOiJSUzI1NiJ9.e30.c2ln";
           loading := false;
           error := None |}) by reflexivity.
  split; [exact Hrun |].
  split; [| split; [reflexivity | split; [discriminate |]]].
  - intros Hclaim.
    assert (Hreach : reachable_through any_op
              {| isAuthenticated := true;
                 user := Some alice;
                 token := Some "eyJhbGciOiJSUzI1NiJ9.e30.c2ln";
                 loading := false;
                 error := None |}).
    { exists "/". eexists. split; [| exact Hrun]. reflexivity. }
    specialize (Hclaim _ Hreach). discriminate Hclaim.
  - intros Hclaim.
    assert (Hreach : reachable_through any_op (signedIn aliceAsSent)).
    { exists "/", [Settle 0 (Fulfilled (statusOk aliceAsSent))].
      split; reflexivity. }
    specialize (Hclaim (signedIn aliceAsSent) aliceAsSent Hreach eq_refl).
    discriminate Hclaim.
Qed.

Section Provenance.

Variable D : Settled -> Prop.
Variable P : AuthState -> Prop.

Hypothesis ops_preserve : forall op, preserves_given D P (perform op).

Lemma advance_safe_given (p : Async unit) :
  forall pv,
    preserves_given D P p -> safe_given D P pv -> safe_given D P (advance p pv).
Proof.
  induction p as [a | e | a k IH | rq k _ | msg k IH | href k IH];
    intros pv Hp [Hstate Hpend]; cbn [advance].
  - split; assumption.
  - split; assumption.
  - destruct Hp as [Ha Hk]. apply IH; [exact Hk |].
    split; [apply Ha; exact Hstate | exact Hpend].
  - split; [exact Hstate |]. cbn [pending].
    apply Forall_app. split; [exact Hpend |].
    constructor; [exact Hp | constructor].
  - apply IH; [exact Hp | split; assumption].
  - apply IH; [exact Hp | split; assumption].
Qed.

Lemma schedule_safe_given (es : list Event) :
  forall pv,
    Forall D (received es) -> safe_given D P pv ->
    safe_given D P (schedule es pv).
Proof.
  induction es as [| e es IH]; intros pv Hes Hpv; [exact Hpv |].
  destruct e as [op | i s]; cbn [received] in Hes; cbn [schedule fold_left].
  - apply IH; [exact Hes |]. cbn [step].
    apply advance_safe_given; [apply ops_preserve | exact Hpv].
  - inversion Hes as [| s' rs Hs Hrest]; subst.
    apply IH; [exact Hrest |]. cbn [step].
    destruct Hpv as [Hstate Hpend].
    destruct (nth_error (pending pv) i) as [k |] eqn:Hk; [| split; assumption].
    apply advance_safe_given.
    + apply nth_error_In in Hk. rewrite Forall_forall in Hpend.
      apply (Hpend k Hk). exact Hs.
    + split; [exact Hstate | apply Forall_remove_nth; exact Hpend].
Qed.

End Provenance.

Ltac given_call :=
  cbn [preserves_given bindA try_catch apply_action setAuthState
       console_error set_location_href negb].

Ltac null_user := given_call; repeat split; intros; auto.

(** Every operation writes as user either [null] or the user object of the
    response it was given. *)
Lemma perform_user_from (rs : list Settled) (op : Op) :
  preserves_given (fun s => In s rs) (user_from rs) (perform op).
Proof.
  assert (Hnull : forall i t l e,
            user_from rs {| isAuthenticated := i; user := None; token := t;
                            loading := l; error := e |})
    by (intros; left; reflexivity).
  destruct op as [| r | |];
    cbn [perform checkAuth login logout refreshToken
         bind ret catch raise Monad_Async Exception_Async fetch];
    given_call.
  - split; [intros prev H; exact H |].
    intros [reason | response] Hin; [null_user |]. given_call.
    unfold json. destruct (body response) as [data |] eqn:Hbody;
      [| null_user].
    given_call.
    destruct (authenticated data && JS.truthy_object (data_user data));
      [| null_user].
    given_call. split; [| exact I]. intros prev _. unfold user_from. right.
    exists response, data. auto.
  - exact I.
  - intros [reason | response] Hin; null_user.
  - intros [reason | response] Hin; [null_user |]. given_call.
    destruct (ok response); [| null_user]. given_call.
    unfold json. destruct (body response) as [data |] eqn:Hbody;
      [| null_user].
    given_call.
    destruct (success data && JS.truthy_object (data_user data));
      [| null_user].
    given_call. split; [| exact I]. intros prev _. unfold user_from. right.
    exists response, data. auto.
Qed.

Lemma user_from_received (href : string) (es : list Event) :
  user_from (received es) (authState (browser (schedule es (mount href)))).
Proof.
  apply (@schedule_safe_given (fun s => In s (received es))
           (user_from (received es)) (perform_user_from (received es)) es).
  - apply Forall_forall. intros s Hs. exact Hs.
  - unfold mount, mountEffect.
    apply advance_safe_given; [apply (perform_user_from _ CheckAuth) |].
    split; [left; reflexivity | constructor].
Qed.

(** C2, amended: the client stores the user object of a response as it
    is, without filtering.  In every state the provider reaches, the user
    is null or the very user object of the body of a response delivered
    before; so it carries the principal's fields only if the server sent
    nothing else, and a user object sent by the status endpoint is exposed
    whole.  The token is null in every state reachable through
    [checkAuth], [login] and [logout], under any interleaving;
    [refreshToken] stores the token of the response when the refresh
    succeeds and null when it fails. *)
Theorem user_as_sent_token_null_unless_refreshed :
  (forall s, reachable_through not_refreshToken s -> token_is_null s) /\
  (forall net w,
     token (authState (fst (run net refreshToken w))) =
       match refresh_outcome (net tokenRequest) with
       | Some (_, t) => t
       | None => None
       end) /\
  (forall net w,
     user (authState (fst (run net refreshToken w))) =
       match refresh_outcome (net tokenRequest) with
       | Some (u, _) => Some u
       | None => None
       end) /\
  (forall href es,
     user_from (received es) (authState (browser (schedule es (mount href))))) /\
  (forall href es,
     (forall response data u,
        In (Fulfilled response) (received es) -> body response = Some data ->
        data_user data = Some u -> only_principal_fields u) ->
     forall u,
       user (authState (browser (schedule es (mount href)))) = Some u ->
       only_principal_fields u) /\
  (forall href u,
     authState (browser (schedule [Settle 0 (Fulfilled (statusOk u))] (mount href)))
       = signedIn u /\
     reachable_through any_op (signedIn u)).
Proof.
  split; [| split; [| split; [| split; [| split]]]].
  - intros s. apply reachable_invariant.
    + intros [| r | |] Hop; try discriminate Hop;
        unfold token_is_null; dispatches; cbn; auto.
    + reflexivity.
    + unfold token_is_null; dispatches; cbn; auto.
  - intros net w. rewrite run_refreshToken.
    destruct (refresh_outcome _) as [[u t] |]; reflexivity.
  - intros net w. rewrite run_refreshToken.
    destruct (refresh_outcome _) as [[u t] |]; reflexivity.
  - apply user_from_received.
  - intros href es Hsent u Hu.
    destruct (user_from_received href es) as [Hnone | [response [data [Hin [Hb Hd]]]]].
    + rewrite Hu in Hnone. discriminate Hnone.
    + apply (Hsent response data u Hin Hb). rewrite Hd. exact Hu.
  - intros href u. split; [reflexivity |].
    exists href, [Settle 0 (Fulfilled (statusOk u))]. split; reflexivity.
Qed.

(** Sign-in confirmed, then a logout whose request fails: no token, and a
    user object with nothing but the principal's fields was sent. *)
Lemma user_as_sent_token_null_unless_refreshed_witness :
  token_is_null
    (authState (browser (schedule
       [Settle 0 (Fulfilled (statusOk alice)); Invoke Logout; Settle 0 (Rejected "offline")]
       (mount "/")))) /\
  forall u,
    user (authState (browser (schedule
       [Settle 0 (Fulfilled (statusOk alice))] (mount "/")))) = Some u ->
    only_principal_fields u.
Proof.
  destruct user_as_sent_token_null_unless_refreshed
    as [Htoken [_ [_ [_ [Hfields _]]]]].
  split.
  - apply Htoken.
    exists "/",
      [Settle 0 (Fulfilled (statusOk alice)); Invoke Logout; Settle 0 (Rejected "offline")].
    split; reflexivity.
  - apply (Hfields "/" [Settle 0 (Fulfilled (statusOk alice))]).
    intros response data u [Hin | []] Hbody Huser.
    inversion Hin; subst response. cbn in Hbody.
    inversion Hbody; subst data. cbn in Huser.
    inversion Huser; subst u. reflexivity.
Defined.

(* ===================================================================== *)
(** ** Further properties                                                 *)
(* ===================================================================== *)

Import AuthWidgets.

(** *** The address [login] navigates to, read back *)

Ltac each_byte c :=
  destruct c as [b0 b1 b2 b3 b4 b5 b6 b7];
  destruct b0, b1, b2, b3, b4, b5, b6, b7.

Lemma occurs_app (c : ascii) (s t : string) :
  Query.occurs c (s ++ t) = Query.occurs c s || Query.occurs c t.
Proof.
  induction s as [| a r IH]; cbn; [reflexivity |].
  rewrite IH. apply orb_assoc.
Qed.

Lemma encode_byte_no_ampersand (c : ascii) :
  Query.occurs "&" (JS.form_encode_byte c) = false.
Proof. each_byte c; reflexivity. Qed.

Lemma encode_no_ampersand (s : string) :
  Query.occurs "&" (JS.form_encode s) = false.
Proof.
  induction s as [| c r IH]; cbn [JS.form_encode]; [reflexivity |].
  rewrite occurs_app, encode_byte_no_ampersand, IH. reflexivity.
Qed.

Lemma split_without_separator (sep : ascii) (s : string) :
  Query.occurs sep s = false -> Url.split sep s = [s].
Proof.
  induction s as [| a r IH]; cbn; [reflexivity |].
  intros H. apply orb_false_iff in H. destruct H as [Ha Hr].
  rewrite Ha, (IH Hr). reflexivity.
Qed.

Lemma decode_encode_byte (c : ascii) (rest : string) :
  Query.form_decode (JS.form_encode_byte c ++ rest)
    = String c (Query.form_decode rest).
Proof. each_byte c; reflexivity. Qed.

Lemma decode_encode (s : string) :
  Query.form_decode (JS.form_encode s) = s.
Proof.
  induction s as [| c r IH]; cbn [JS.form_encode]; [reflexivity |].
  rewrite decode_encode_byte, IH. reflexivity.
Qed.

(** X1: for every redirect target that is a well-formed string (one
    without unpaired surrogates, here its UTF-8 bytes), whatever characters
    it contains: the address [login] assigns has exactly one query
    parameter when the target is non-empty, [redirect_url], and decoding
    its value gives back the target; it has no query parameter otherwise.
    A target with an unpaired surrogate is outside this statement: the
    serializer replaces the surrogate, and the value decodes to the
    replaced string. *)
Theorem login_target_round_trip (redirectUrl : option string) :
  Query.query_pairs (loginUrl redirectUrl) =
    if JS.truthy_opt_string redirectUrl
    then [("redirect_url", the redirectUrl)]
    else [].
Proof.
  rewrite loginUrl_cases. destruct redirectUrl as [[| c r] |];
    try reflexivity.
  cbn [JS.truthy_opt_string JS.truthy_string the].
  unfold Query.query_pairs.
  change (Url.after_first "?"
            ("/api/v1/auth/login?redirect_url=" ++ JS.form_encode (String c r)))
    with (Some ("redirect_url=" ++ JS.form_encode (String c r))).
  cbv beta iota.
  rewrite split_without_separator.
  - unfold Query.pair_of.
    cbn -[JS.form_encode Query.form_decode].
    rewrite decode_encode. reflexivity.
  - rewrite occurs_app, encode_no_ampersand. reflexivity.
Qed.

(** *** The operations, one call at a time *)

Lemma run_checkAuth_console (net : Request -> Settled) (w : Browser) :
  console (fst (run net checkAuth w)) =
    (console w ++ if unreadable (net checkRequest)
                  then ["Auth check failed:"] else [])%list.
Proof.
  unfold checkAuth, unreadable. run_call. fold checkRequest.
  destruct (net checkRequest) as [reason | response]; run_call;
    [reflexivity |].
  unfold json. destruct (body response) as [data |]; run_call;
    [| reflexivity].
  destruct (authenticated data && JS.truthy_object (data_user data));
    cbn; rewrite app_nil_r; reflexivity.
Qed.

Lemma run_logout_requests (net : Request -> Settled) (w : Browser) :
  requests (fst (run net logout w)) = (requests w ++ [logoutRequest])%list /\
  snd (run net logout w) = inr tt.
Proof.
  unfold logout. run_call. fold logoutRequest.
  destruct (net logoutRequest) as [reason | response]; run_call; cbn;
    split; reflexivity.
Qed.

(** X2: the state [checkAuth] leaves depends on the settlement of its
    request alone: not on the state before, and not on [response.ok], which
    it never reads; it holds no token and is not loading. *)
Theorem checkAuth_overwrites_state :
  (forall net w w',
     authState (fst (run net checkAuth w)) = authState (fst (run net checkAuth w'))) /\
  (forall response b w,
     authState (fst (run (answering {| ok := b; body := body response |}) checkAuth w))
       = authState (fst (run (answering response) checkAuth w))) /\
  (forall net w,
     token (authState (fst (run net checkAuth w))) = None /\
     loading (authState (fst (run net checkAuth w))) = false).
Proof.
  split; [| split].
  - intros net w w'.
    destruct (run_checkAuth net w) as [-> _].
    destruct (run_checkAuth net w') as [-> _]. reflexivity.
  - intros response b w.
    destruct (run_checkAuth (answering {| ok := b; body := body response |}) w)
      as [-> _].
    destruct (run_checkAuth (answering response) w) as [-> _]. reflexivity.
  - intros net w. destruct (run_checkAuth net w) as [-> _].
    destruct (check_outcome _); split; reflexivity.
Qed.

(** X3: [checkAuth] sets [error] (to its fixed message) and writes to the
    console exactly when the request was rejected or its body could not be
    read; an answer that says not authenticated is no error. *)
Theorem checkAuth_error_only_on_failure (net : Request -> Settled) (w : Browser) :
  let w' := fst (run net checkAuth w) in
  error (authState w') =
    (if unreadable (net checkRequest)
     then Some "Authentication check failed" else None) /\
  console w' =
    (console w ++ if unreadable (net checkRequest)
                  then ["Auth check failed:"] else [])%list /\
  (unreadable (net checkRequest) = true ->
   isAuthenticated (authState w') = false /\ user (authState w') = None).
Proof.
  cbv zeta. rewrite run_checkAuth_console.
  destruct (run_checkAuth net w) as [-> _].
  unfold check_outcome, check_error, unreadable.
  destruct (net checkRequest) as [reason | response].
  - repeat split.
  - destruct (body response) as [data |].
    + repeat split; try discriminate.
      destruct (authenticated data); [destruct (data_user data) |]; reflexivity.
    + repeat split.
Qed.

(** X4: [logout] never looks at the response: any two responses leave the
    same browser.  The console gets an entry only when the request was
    rejected. *)
Theorem logout_ignores_response :
  (forall response response' w,
     fst (run (answering response) logout w)
       = fst (run (answering response') logout w)) /\
  (forall net w,
     console (fst (run net logout w)) =
       (console w ++ if rejected (net logoutRequest)
                     then ["Logout failed:"] else [])%list).
Proof.
  split.
  - intros response response' w. reflexivity.
  - intros net w. unfold logout, rejected. run_call. fold logoutRequest.
    destruct (net logoutRequest) as [reason | response]; run_call; cbn;
      rewrite ?app_nil_r; reflexivity.
Qed.

(** X5: whatever the network does, each operation sends exactly the one
    request of its endpoint, with [credentials: 'include'], and [login]
    sends none: nothing is ever retried.  The promise of each operation is
    fulfilled: every failure is caught inside. *)
Theorem one_request_no_retry_no_throw
  (op : Op) (net : Request -> Settled) (w : Browser) :
  requests (fst (run net (perform op) w)) = (requests w ++ request_of op)%list /\
  Forall (fun rq => credentials (init rq) = "include") (request_of op) /\
  snd (run net (perform op) w) = inr tt.
Proof.
  destruct op as [| r | |]; cbn [perform request_of].
  - destruct (run_checkAuth net w) as [_ [-> [_ ->]]].
    repeat split. repeat constructor.
  - unfold login. run_call. cbn. rewrite app_nil_r. repeat split. constructor.
  - destruct (run_logout_requests net w) as [-> ->].
    repeat split. repeat constructor.
  - unfold refreshToken. run_call. fold tokenRequest.
    assert (Hcred : Forall (fun rq => credentials (init rq) = "include")
                      [tokenRequest]) by (repeat constructor).
    destruct (net tokenRequest) as [reason | response]; run_call;
      [cbn; repeat split; exact Hcred |].
    destruct (ok response); run_call; [| cbn; repeat split; exact Hcred].
    unfold json. destruct (body response) as [data |]; run_call;
      [| cbn; repeat split; exact Hcred].
    destruct (success data && JS.truthy_object (data_user data));
      cbn; repeat split; exact Hcred.
Qed.

Lemma checkAuth_error_only_on_failure_witness :
  isAuthenticated (authState (fst (run offline checkAuth dashboard))) = false /\
  user (authState (fst (run offline checkAuth dashboard))) = None.
Proof.
  destruct (checkAuth_error_only_on_failure offline dashboard) as [_ [_ H]].
  apply H. reflexivity.
Defined.

(** *** Calls in flight *)

(** X6: calling [checkAuth] at once turns [loading] on and clears [error],
    keeps the identity and the token, and suspends on its request; until
    that settles (and nothing else writes the state) the guard shows the
    spinner and the login and logout buttons are disabled. *)
Theorem checkAuth_shows_loading
  (pv : Provider) (props : AuthGuardProps) (cls : option string) :
  let s := authState (browser pv) in
  let pv' := step pv (Invoke CheckAuth) in
  let s' := authState (browser pv') in
  s' = {| isAuthenticated := isAuthenticated s; user := user s;
          token := token s; loading := true; error := None |} /\
  length (pending pv') = S (length (pending pv)) /\
  requests (browser pv') = (requests (browser pv) ++ [checkRequest])%list /\
  AuthGuard props [providerValue s'] = inr LoadingSpinner /\
  (exists b, LoginButton {| redirectUrl := None; className := cls |}
               [providerValue s'] = inr b /\ disabled b = true) /\
  (exists b, LogoutButton cls [providerValue s'] = inr b /\ disabled b = true).
Proof.
  cbv zeta. unfold step, perform, checkAuth. run_call. cbn.
  rewrite length_app, Nat.add_comm. cbn.
  repeat split; eexists; split; reflexivity.
Qed.

(** X7: [logout] and [refreshToken] write nothing before their request
    settles: the state, and with it every button, stays as it was, so a
    second click on an enabled logout button sends a second request. *)
Theorem logout_and_refresh_silent_until_settled (pv : Provider) :
  browser (step pv (Invoke Logout)) = send logoutRequest (browser pv) /\
  browser (step pv (Invoke RefreshToken)) = send tokenRequest (browser pv) /\
  authState (browser (schedule [Invoke Logout; Invoke Logout] pv))
    = authState (browser pv) /\
  requests (browser (schedule [Invoke Logout; Invoke Logout] pv))
    = (requests (browser pv) ++ [logoutRequest; logoutRequest])%list /\
  length (pending (schedule [Invoke Logout; Invoke Logout] pv))
    = S (S (length (pending pv))).
Proof.
  unfold schedule, step, perform, logout, refreshToken. run_call. cbn.
  rewrite <- !app_assoc, !length_app. cbn.
  repeat split. lia.
Qed.

(** X8: a status check still in flight when the user logs out is not
    cancelled: if it then resolves with a signed-in answer, the client
    state is signed in again although the window was sent home. *)
Theorem stale_check_undoes_logout
  (href : string) (s : Settled) (response : Response) (data : Data) (u : EIAMUser) :
  body response = Some data ->
  authenticated data = true ->
  data_user data = Some u ->
  let pv := schedule [Invoke Logout; Settle 1 s; Settle 0 (Fulfilled response)]
              (mount href) in
  authState (browser pv) = signedIn u /\
  location_href (browser pv) = "/" /\
  pending pv = [].
Proof.
  intros Hbody Hauth Huser. cbv zeta.
  unfold schedule, mount, mountEffect, step, perform, checkAuth, logout.
  run_call. cbn.
  destruct s as [reason | r]; cbn; unfold json; rewrite Hbody; cbn;
    rewrite Hauth, Huser; cbn; repeat split.
Qed.

Lemma stale_check_undoes_logout_witness :
  authState (browser (schedule
     [Invoke Logout; Settle 1 (Fulfilled serverError);
      Settle 0 (Fulfilled (statusOk alice))]
     (mount "/dashboard")))
    = signedIn alice.
Proof.
  apply (stale_check_undoes_logout "/dashboard" (Fulfilled serverError)
           (statusOk alice) eq_refl eq_refl eq_refl).
Defined.

(** X9: the user menu keys on the user object alone, the guard and the
    status line on [isAuthenticated].  A refresh that succeeds in a
    provider whose status check said not logged in leaves a state in which
    the menu shows the profile of the user while the guard shows the
    fallback and the status line says not authenticated. *)
Theorem menu_and_guard_disagree_after_refresh
  (href : string) (u : EIAMUser) (t : option string)
  (props : AuthGuardProps) (cls : option string) :
  let s := authState (browser (schedule
             [Settle 0 (Fulfilled notLoggedIn);
              Invoke RefreshToken;
              Settle 0 (Fulfilled (refreshed u t))]
             (mount href))) in
  reachable_through any_op s /\
  s = {| isAuthenticated := false; user := Some u; token := t;
         loading := false; error := None |} /\
  (exists menu, UserMenu cls [providerValue s] = inr (MenuProfile menu) /\
                avatarFallback menu = userInitials u /\
                logoutDisabled menu = false) /\
  AuthGuard props [providerValue s]
    = inr (NotAuthenticated (or_else (fallback props) LoginButtonElement)) /\
  (exists v, AuthStatus cls [providerValue s] = inr v /\
             text v = "Nicht authentifiziert").
Proof.
  cbv zeta.
  assert (Hs : authState (browser (schedule
             [Settle 0 (Fulfilled notLoggedIn);
              Invoke RefreshToken;
              Settle 0 (Fulfilled (refreshed u t))]
             (mount href)))
           = {| isAuthenticated := false; user := Some u; token := t;
                loading := false; error := None |}) by reflexivity.
  split.
  - exists href. eexists. split; [| reflexivity]. reflexivity.
  - rewrite Hs. split; [reflexivity |].
    split; [eexists; repeat split |].
    split; [reflexivity |]. eexists. split; reflexivity.
Qed.

(** X10: in every state the provider can reach, under any interleaving, a
    guard that requires a non-empty role and shows the children has a user
    whose roles hold that role: the skipping of the role test for a missing
    user never happens there. *)
Theorem guard_enforces_role_when_reachable
  (s : AuthState) (props : AuthGuardProps) (role : string) :
  reachable_through any_op s ->
  requireRole props = Some role ->
  role <> EmptyString ->
  AuthGuard props [providerValue s] = inr (Protected (children props)) ->
  exists u, user s = Some u /\ In role (roles u).
Proof.
  intros Hreach Hreq Hne Hview.
  pose proof (authenticated_has_user Hreach) as Hinv.
  unfold has_user_if_authenticated in Hinv.
  unfold AuthGuard in Hview. cbn in Hview. rewrite Hreq in Hview.
  destruct (loading s); [discriminate Hview |].
  destruct (isAuthenticated s); cbn in Hview; [| discriminate Hview].
  destruct (user s) as [u |]; [| exfalso; apply (Hinv eq_refl); reflexivity].
  exists u. split; [reflexivity |].
  apply truthy_string_nonempty in Hne. rewrite Hne in Hview. cbn in Hview.
  destruct (JS.includes (roles u) role) eqn:Hinc; [| discriminate Hview].
  apply includes_In. exact Hinc.
Qed.

Lemma guard_enforces_role_when_reachable_witness :
  exists u, user (signedIn alice) = Some u /\ In "presenton-user" (roles u).
Proof.
  apply (@guard_enforces_role_when_reachable
           (signedIn alice)
           {| children := RElement "Slides" [];
              fallback := RUndefined;
              requireRole := Some "presenton-user" |}
           "presenton-user").
  - exists "/", [Settle 0 (Fulfilled (statusOk alice))]. split; reflexivity.
  - reflexivity.
  - discriminate.
  - reflexivity.
Defined.

(** *** The avatar initials of [UserMenu] *)

Lemma slice_0_2_length (s : string) : String.length (slice_0_2 s) <= 2.
Proof. destruct s as [| a [| b r]]; cbn; lia. Qed.

Lemma toUpperCase_length (s : string) :
  String.length (toUpperCase s) = String.length s.
Proof. induction s as [| c r IH]; cbn; [reflexivity | now rewrite IH]. Qed.

Lemma toUpperCase_empty (s : string) :
  toUpperCase s = EmptyString <-> s = EmptyString.
Proof. destruct s; cbn; split; intros H; try reflexivity; discriminate H. Qed.

Lemma slice_0_2_empty (s : string) :
  slice_0_2 s = EmptyString <-> s = EmptyString.
Proof.
  destruct s as [| a [| b r]]; cbn; split; intros H; try reflexivity;
    discriminate H.
Qed.

(** The first characters of the pieces of [n] are none exactly when [n]
    consists of separators. *)
Lemma first_letters_empty (n : string) :
  join (map charAt0 (Url.split " " n)) = EmptyString <-> only_spaces n.
Proof.
  unfold only_spaces. induction n as [| a r IH]; cbn.
  - split; reflexivity.
  - destruct (Ascii.eqb a " "); cbn.
    + exact IH.
    + destruct (Url.split " " r); cbn; split; intros H; discriminate H.
Qed.

(** X11: for a user whose name and e-mail are ASCII, the initials shown
    in the avatar are at most two characters long. *)
Theorem userInitials_at_most_two (u : EIAMUser) :
  ascii_only_opt (name u) -> ascii_only_opt (email u) ->
  String.length (userInitials u) <= 2.
Proof.
  intros _ _. unfold userInitials.
  destruct (JS.truthy_opt_string (name u)).
  - apply slice_0_2_length.
  - destruct (JS.truthy_opt_string (email u)).
    + rewrite toUpperCase_length. apply slice_0_2_length.
    + cbn. lia.
Qed.

Lemma userInitials_at_most_two_witness :
  String.length (userInitials alice) <= 2.
Proof.
  apply (userInitials_at_most_two alice); reflexivity.
Defined.

(** X12: for a user whose name and e-mail are ASCII, the initials are the
    empty string exactly when the user has a non-empty name made of spaces
    only; a missing or empty name falls back
    to the e-mail address, and to ["U"] when that is missing or empty
    too. *)
Theorem userInitials_blank_iff_name_of_spaces (u : EIAMUser) :
  ascii_only_opt (name u) -> ascii_only_opt (email u) ->
  (userInitials u = EmptyString <->
   exists n, name u = Some n /\ n <> EmptyString /\ only_spaces n) /\
  (JS.truthy_opt_string (name u) = false ->
   userInitials u =
     if JS.truthy_opt_string (email u)
     then toUpperCase (slice_0_2 (the (email u))) else "U").
Proof.
  intros _ _. unfold userInitials. split.
  - destruct (name u) as [[| a r] |]; cbn [JS.truthy_opt_string JS.truthy_string the].
    + split.
      * intros H. exfalso. destruct (email u) as [[| b [| c q]] |]; discriminate H.
      * intros [n [Hn [Hne _]]]. inversion Hn; subst. contradiction.
    + rewrite slice_0_2_empty, toUpperCase_empty, first_letters_empty. split.
      * intros H. exists (String a r). repeat split; [discriminate | exact H].
      * intros [n [Hn [_ H]]]. inversion Hn; subst. exact H.
    + split.
      * intros H. exfalso. destruct (email u) as [[| b [| c q]] |]; discriminate H.
      * intros [n [Hn _]]. discriminate Hn.
  - intros ->. reflexivity.
Qed.

Lemma userInitials_blank_iff_name_of_spaces_witness :
  userInitials {| sub := "u-7"; name := Some EmptyString;
                  email := Some "bob@example.ch"; given_name := None;
                  family_name := None; roles := []; department := None;
                  organization := None; others := [] |} = "BO".
Proof.
  apply (proj2 (userInitials_blank_iff_name_of_spaces
           {| sub := "u-7"; name := Some EmptyString;
              email := Some "bob@example.ch"; given_name := None;
              family_name := None; roles := []; department := None;
              organization := None; others := [] |} eq_refl eq_refl)).
  reflexivity.
Defined.

Lemma split_word (sep : ascii) (w rest : string) :
  Query.occurs sep w = false ->
  Url.split sep (w ++ String sep rest) = w :: Url.split sep rest.
Proof.
  induction w as [| a r IH]; cbn; intros H.
  - rewrite Ascii.eqb_refl. reflexivity.
  - apply orb_false_iff in H. destruct H as [Ha Hr].
    rewrite Ha, (IH Hr). reflexivity.
Qed.

Lemma split_head (sep a : ascii) (r : string) :
  Ascii.eqb a sep = false ->
  exists p ps, Url.split sep (String a r) = String a p :: ps.
Proof.
  intros Ha. cbn. rewrite Ha. destruct (Url.split sep r) as [| p ps];
    eexists; eexists; reflexivity.
Qed.

(** X13: for an ASCII name whose first word is followed by a space and a second
    word, the initials are the upper-cased first letters of these two
    words, whatever comes after; a name of a single word gives its
    upper-cased first letter alone. *)
Theorem userInitials_of_words (u : EIAMUser) (a b : ascii) (w1 w2 : string) :
  ascii_only_opt (name u) ->
  Ascii.eqb a " " = false -> Query.occurs " " w1 = false ->
  Ascii.eqb b " " = false ->
  (name u = Some (String a w1 ++ String " " (String b w2)) ->
   userInitials u = String (upper a) (String (upper b) EmptyString)) /\
  (name u = Some (String a w1) ->
   userInitials u = String (upper a) EmptyString).
Proof.
  intros _ Ha Hw1 Hb. unfold userInitials. split; intros ->;
    cbn [JS.truthy_opt_string JS.truthy_string the append].
  - change (String a (w1 ++ String " " (String b w2)))
      with (String a w1 ++ String " " (String b w2)).
    rewrite split_word by (cbn; rewrite Ha, Hw1; reflexivity).
    destruct (@split_head " " b w2 Hb) as [p [ps ->]]. reflexivity.
  - rewrite split_without_separator by (cbn; rewrite Ha, Hw1; reflexivity).
    reflexivity.
Qed.

Lemma userInitials_of_words_witness :
  userInitials alice = "AM".
Proof.
  apply (proj1 (@userInitials_of_words alice "A" "M" "lice" "uster"
                  eq_refl eq_refl eq_refl eq_refl)).
  reflexivity.
Defined.

(** *** [AuthStatus] and the other consumers of the context *)

Lemma the_or_string_nonempty (a : option string) (d : string) :
  d <> EmptyString -> the (or_string a (Some d)) <> EmptyString.
Proof.
  intros Hd. unfold or_string.
  destruct a as [[| c r] |]; cbn; try exact Hd. discriminate.
Qed.

(** X14: for an authenticated state that is not loading, the status line
    reads ["Angemeldet als: "] followed by a name that is never empty: the
    user's name if it is non-empty, else the e-mail address if that is
    non-empty, else ["Unbekannt"], which is also what a missing user object
    gives. *)
Theorem AuthStatus_names_the_user (s : AuthState) (cls : option string) :
  loading s = false -> isAuthenticated s = true ->
  (exists v, AuthStatus cls [providerValue s] = inr v /\
             text v = "Angemeldet als: " ++ shownName (user s)) /\
  shownName (user s) <> EmptyString /\
  shownName (user s) =
    match user s with
    | None => "Unbekannt"
    | Some u =>
        if JS.truthy_opt_string (name u) then the (name u)
        else if JS.truthy_opt_string (email u) then the (email u)
        else "Unbekannt"
    end.
Proof.
  intros Hload Hauth. split; [| split].
  - unfold AuthStatus. cbn. rewrite Hload, Hauth. cbn.
    eexists. split; reflexivity.
  - unfold shownName. apply the_or_string_nonempty. discriminate.
  - unfold shownName, or_string. destruct (user s) as [u |]; [| reflexivity].
    destruct (name u) as [[| c r] |]; cbn;
      destruct (email u) as [[| c' r'] |]; reflexivity.
Qed.

Lemma AuthStatus_names_the_user_witness :
  exists v, AuthStatus None [providerValue (signedIn alice)] = inr v /\
            text v = "Angemeldet als: " ++ shownName (user (signedIn alice)).
Proof.
  apply (AuthStatus_names_the_user (signedIn alice) None eq_refl eq_refl).
Defined.

(** X15: the status line and the guard always agree: for every state,
    the status line shows the loading text exactly when the guard shows
    the spinner, and says not authenticated exactly when the guard shows
    its not-authenticated view. *)
Theorem AuthStatus_agrees_with_AuthGuard
  (s : AuthState) (props : AuthGuardProps) (cls : option string) :
  exists v g,
    AuthStatus cls [providerValue s] = inr v /\
    AuthGuard props [providerValue s] = inr g /\
    (text v = "Lade Authentifizierungsstatus..." <-> g = LoadingSpinner) /\
    (text v = "Nicht authentifiziert" <-> exists shown, g = NotAuthenticated shown).
Proof.
  unfold AuthStatus, AuthGuard. cbn.
  destruct (loading s); [| destruct (isAuthenticated s)]; cbn.
  - eexists. eexists. repeat split; try discriminate.
    intros [shown H]. discriminate H.
  - destruct (requireRole props) as [role |]; [destruct (user s) as [u |] |];
      [destruct (JS.truthy_string role && negb (JS.includes (roles u) role)) | |];
      eexists; eexists; (split; [reflexivity |]); (split; [reflexivity |]);
      cbn; split; split; try discriminate;
      intros [shown H]; discriminate H.
  - eexists. eexists. repeat split; try discriminate. eexists. reflexivity.
Qed.

(** X16: the login button that the guard shows when no fallback is given
    is enabled, and a click on it sends the window to the bare login
    endpoint: no redirect target is passed, so the page that was guarded is
    not remembered.  The click changes nothing else. *)
Theorem guard_login_button_has_no_target
  (s : AuthState) (props : AuthGuardProps) (net : Request -> Settled) (w : Browser) :
  loading s = false -> isAuthenticated s = false ->
  truthy_node (fallback props) = false ->
  AuthGuard props [providerValue s] = inr (NotAuthenticated LoginButtonElement) /\
  exists b,
    LoginButton guardLoginButtonProps [providerValue s] = inr b /\
    disabled b = false /\
    label b = "Anmelden" /\
    fst (run net (onClick b) w) = navigate "/api/v1/auth/login" w /\
    Query.query_pairs (location_href (fst (run net (onClick b) w))) = [].
Proof.
  intros Hload Hauth Hfb. split.
  - unfold AuthGuard, or_else. cbn. rewrite Hload, Hauth, Hfb. reflexivity.
  - unfold LoginButton. cbn. rewrite Hload. eexists. repeat split.
Qed.

Lemma guard_login_button_has_no_target_witness :
  AuthGuard {| children := RElement "Slides" []; fallback := RUndefined;
               requireRole := None |}
    [providerValue (signedOut None)]
    = inr (NotAuthenticated LoginButtonElement).
Proof.
  apply (@guard_login_button_has_no_target (signedOut None)
           {| children := RElement "Slides" []; fallback := RUndefined;
              requireRole := None |}
           offline dashboard eq_refl eq_refl eq_refl).
Defined.

(** X17: rendered outside an [AuthProvider], every component of the file
    fails with the error of [useAuth]; none renders anything. *)
Theorem components_need_a_provider
  (props : AuthGuardProps) (lprops : LoginButtonProps) (cls : option string) :
  AuthGuard props [] = inl "useAuth must be used within an AuthProvider" /\
  LoginButton lprops [] = inl "useAuth must be used within an AuthProvider" /\
  LogoutButton cls [] = inl "useAuth must be used within an AuthProvider" /\
  UserMenu cls [] = inl "useAuth must be used within an AuthProvider" /\
  AuthStatus cls [] = inl "useAuth must be used within an AuthProvider".
Proof. repeat split. Qed.

(** X18: the user menu shows a login button exactly when the state has no
    user object, whatever [isAuthenticated] and [loading] say; that button
    passes no redirect target.  Otherwise it shows the profile menu, whose
    heading is never empty and whose logout item runs [logout] and is
    disabled exactly while loading. *)
Theorem UserMenu_keys_on_user (s : AuthState) (cls : option string) :
  (user s = None <->
   UserMenu cls [providerValue s]
     = inr (MenuLogin {| redirectUrl := None;
                         className := Some (classOrEmpty cls) |})) /\
  (forall u, user s = Some u ->
     exists menu,
       UserMenu cls [providerValue s] = inr (MenuProfile menu) /\
       heading menu <> EmptyString /\
       logoutClick menu = logout /\
       logoutDisabled menu = loading s /\
       departmentLine menu <> Some EmptyString).
Proof.
  unfold UserMenu. cbn. split.
  - destruct (user s); split; intros H; try reflexivity; discriminate H.
  - intros u ->. eexists. split; [reflexivity |]. cbn. repeat split.
    + apply the_or_string_nonempty. discriminate.
    + destruct (department u) as [[| c r] |]; cbn; discriminate.
Qed.

Lemma UserMenu_keys_on_user_witness :
  exists menu,
    UserMenu None [providerValue (signedIn alice)] = inr (MenuProfile menu) /\
    heading menu <> EmptyString /\
    logoutClick menu = logout /\
    logoutDisabled menu = loading (signedIn alice) /\
    departmentLine menu <> Some EmptyString.
Proof.
  apply (proj2 (UserMenu_keys_on_user (signedIn alice) None) alice).
  reflexivity.
Defined.

(** *** From the network to the screen *)

Lemma run_refreshToken_location (net : Request -> Settled) (w : Browser) :
  location_href (fst (run net refreshToken w)) = location_href w.
Proof.
  unfold refreshToken. run_call.
  destruct (net _) as [reason | response]; run_call; [reflexivity |].
  destruct (ok response); run_call; [| reflexivity].
  unfold json. destruct (body response) as [data |]; run_call; [| reflexivity].
  destruct (success data && JS.truthy_object (data_user data)); reflexivity.
Qed.

(** X19: [checkAuth] and [refreshToken] never navigate: whatever the
    network answers, also when the session turns out to be expired, the
    window stays at its address.  Only [login] and [logout] assign it. *)
Theorem only_login_and_logout_navigate (net : Request -> Settled) (w : Browser) :
  location_href (fst (run net checkAuth w)) = location_href w /\
  location_href (fst (run net refreshToken w)) = location_href w.
Proof.
  split.
  - destruct (run_checkAuth net w) as [_ [_ [H _]]]. exact H.
  - apply run_refreshToken_location.
Qed.

(** X20: after a refresh that fails in any way, every consumer shows the
    logged-out interface: the guard its not-authenticated view, the user
    menu a login button, the status line that nobody is authenticated; the
    state carries the error ["Session expired"]. *)
Theorem failed_refresh_shows_logged_out
  (net : Request -> Settled) (w : Browser)
  (props : AuthGuardProps) (cls : option string) :
  refresh_outcome (net tokenRequest) = None ->
  let s' := authState (fst (run net refreshToken w)) in
  error s' = Some "Session expired" /\
  AuthGuard props [providerValue s']
    = inr (NotAuthenticated (or_else (fallback props) LoginButtonElement)) /\
  UserMenu cls [providerValue s']
    = inr (MenuLogin {| redirectUrl := None;
                        className := Some (classOrEmpty cls) |}) /\
  exists v, AuthStatus cls [providerValue s'] = inr v /\
            text v = "Nicht authentifiziert".
Proof.
  intros Hout. cbv zeta. rewrite run_refreshToken, Hout.
  repeat split. eexists. split; reflexivity.
Qed.

Lemma failed_refresh_shows_logged_out_witness :
  exists v,
    AuthStatus None
      [providerValue (authState (fst (run offline refreshToken dashboard)))]
      = inr v /\
    text v = "Nicht authentifiziert".
Proof.
  apply (@failed_refresh_shows_logged_out offline dashboard adminPage None).
  reflexivity.
Defined.

(** X21: from mounting to the screen: once the status check of the mount
    effect is answered with a user, a guard that requires a non-empty role
    shows the children if the roles in that answer hold the role and the
    access-denied panel for that role if they do not: the roles used are
    those the server sent. *)
Theorem mount_then_guard_uses_server_roles
  (href : string) (response : Response) (data : Data) (u : EIAMUser)
  (props : AuthGuardProps) (role : string) :
  body response = Some data ->
  authenticated data = true ->
  data_user data = Some u ->
  requireRole props = Some role ->
  role <> EmptyString ->
  let s := authState (browser (step (mount href) (Settle 0 (Fulfilled response)))) in
  s = signedIn u /\
  AuthGuard props [providerValue s] =
    if JS.includes (roles u) role
    then inr (Protected (children props))
    else inr (AccessDenied role).
Proof.
  intros Hbody Hauth Huser Hreq Hne. cbv zeta.
  assert (Hs : authState (browser (step (mount href) (Settle 0 (Fulfilled response))))
               = signedIn u).
  { unfold mount, mountEffect, step, checkAuth. run_call. cbn.
    unfold json. rewrite Hbody. cbn. rewrite Hauth, Huser. reflexivity. }
  rewrite Hs. split; [reflexivity |].
  unfold AuthGuard. cbn. rewrite Hreq.
  apply truthy_string_nonempty in Hne. rewrite Hne. cbn.
  destruct (JS.includes (roles u) role); reflexivity.
Qed.

Lemma mount_then_guard_uses_server_roles_witness :
  AuthGuard adminPage
    [providerValue
       (authState (browser (step (mount "/admin")
                              (Settle 0 (Fulfilled (statusOk alice))))))]
    = inr (AccessDenied "presenton-admin").
Proof.
  apply (@mount_then_guard_uses_server_roles "/admin" (statusOk alice)
           {| authenticated := true; success := false;
              data_user := Some alice; data_token := None |}
           alice adminPage "presenton-admin"
           eq_refl eq_refl eq_refl eq_refl).
  discriminate.
Defined.
